(** * Dealbuster backend: deal status machine, consensus and alert matching

    A shallow embedding of [src/backend/server.js]: the in-memory store, the
    request handlers that mutate it, the delayed promotion check, the consensus
    check and the alert scan, followed by the properties of the deal status
    machine and of the alert matcher.

    Modelling conventions.
    - The store [state.deals], [state.users] and [state.verifications] are JS
      [Map]s that the server only reads by key: they are finite maps.
      [state.alerts] is iterated in insertion order by [checkAlertsForDeal], so
      it is an association list with the [Map.set]/[Map.delete] discipline.
    - JS objects held in a [Map] are mutated in place; here the handler writes
      the updated record back under the key it fetched the object with.
    - [uuidv4()] and [Date.now()] are inputs of the step that performs them.
    - JS numbers are exact rationals extended with NaN and the two infinities;
      rounding to IEEE doubles and the sign of zero are outside the model.
      Strings are byte strings: case mapping and white space are the ASCII
      ones.
    - Text fields of a request body (title, url, ids, keywords, ...) are JSON
      strings or absent; the other fields are arbitrary JSON scalars.
    - A step returns the response, the new store and its trace: the messages
      handed to [broadcast], in order, with a mark at each entry into
      [checkAlertsForDeal]. The [console.log] lines and the read-only GET
      routes are left out. *)

From Stdlib Require Import ZArith QArith String Ascii List Bool Lia.
From stdpp Require Import gmap strings list.

Local Open Scope string_scope.
Local Open Scope list_scope.
Local Open Scope nat_scope.

(** ** JavaScript scalars *)

Module JS.

(** A JS number. *)
Inductive number :=
| NaN
| Infinity (negative : bool)
| Finite (q : Q).

(** A JSON scalar as [express.json()] delivers it ([JUndefined]: the field is
    absent from the body). *)
Inductive value :=
| JUndefined
| JNull
| JBool (b : bool)
| JNum (n : number)
| JStr (s : string).

Definition is_zero (q : Q) : bool := Qeq_bool q 0.

(** [a <= b] on numbers: false as soon as one side is NaN. *)
Definition num_le (a b : number) : bool :=
  match a, b with
  | NaN, _ | _, NaN => false
  | Infinity true, _ => true
  | Infinity false, Infinity false => true
  | Infinity false, _ => false
  | Finite _, Infinity negative => negb negative
  | Finite p, Finite q => Qle_bool p q
  end.

(** [a >= b] on numbers. *)
Definition num_ge (a b : number) : bool := num_le b a.

(** [a === b] on numbers. *)
Definition num_eq (a b : number) : bool :=
  match a, b with
  | Finite p, Finite q => Qeq_bool p q
  | Infinity m, Infinity n => Bool.eqb m n
  | _, _ => false
  end.

Definition of_nat (n : nat) : number := Finite (inject_Z (Z.of_nat n)).

(** ToBoolean. *)
Definition truthy (v : value) : bool :=
  match v with
  | JUndefined | JNull => false
  | JBool b => b
  | JNum NaN => false
  | JNum (Infinity _) => true
  | JNum (Finite q) => negb (is_zero q)
  | JStr s => negb (String.eqb s EmptyString)
  end.

(** [a || b]. *)
Definition or_else (a b : value) : value := if truthy a then a else b.

(** [v === 'text']. *)
Definition is_string (v : value) (text : string) : bool :=
  match v with
  | JStr s => String.eqb s text
  | _ => false
  end.

(** *** Strings *)

Definition lower_ascii (c : ascii) : ascii :=
  let n := nat_of_ascii c in
  if (65 <=? n) && (n <=? 90) then ascii_of_nat (n + 32) else c.

(** [s.toLowerCase()]. *)
Fixpoint toLowerCase (s : string) : string :=
  match s with
  | EmptyString => EmptyString
  | String c rest => String (lower_ascii c) (toLowerCase rest)
  end.

(** [s.includes(sub)]. *)
Fixpoint includes (s sub : string) : bool :=
  if String.prefix sub s then true
  else match s with
       | EmptyString => false
       | String _ rest => includes rest sub
       end.

Definition is_space (c : ascii) : bool :=
  let n := nat_of_ascii c in
  (n =? 32) || ((9 <=? n) && (n <=? 13)).

Fixpoint trimStart (s : string) : string :=
  match s with
  | String c rest => if is_space c then trimStart rest else s
  | EmptyString => EmptyString
  end.

Fixpoint trimEnd (s : string) : string :=
  match s with
  | EmptyString => EmptyString
  | String c rest =>
      match trimEnd rest with
      | EmptyString => if is_space c then EmptyString else String c EmptyString
      | kept => String c kept
      end
  end.

(** [s.trim()]. *)
Definition trim (s : string) : string := trimEnd (trimStart s).

(** *** Numeric literals *)

Definition digit_of (radix : nat) (c : ascii) : option Z :=
  let n := nat_of_ascii c in
  let d := if (48 <=? n) && (n <=? 57) then Some (n - 48)
           else if (97 <=? n) && (n <=? 122) then Some (n - 87)
           else if (65 <=? n) && (n <=? 90) then Some (n - 55)
           else None in
  match d with
  | Some k => if k <? radix then Some (Z.of_nat k) else None
  | None => None
  end.

(** Reads the longest run of digits at the head of [s], continuing the
    accumulator [acc]; returns the value, the number of digits read and what
    follows them. *)
Fixpoint read_digits (radix : nat) (s : string) (acc : Z) (count : nat)
  : Z * nat * string :=
  match s with
  | String c rest =>
      match digit_of radix c with
      | Some d => read_digits radix rest (Z.of_nat radix * acc + d)%Z (S count)
      | None => (acc, count, s)
      end
  | EmptyString => (acc, count, s)
  end.

(** [mantissa * 10 ^ exponent]. *)
Definition scale10 (mantissa exponent : Z) : Q :=
  match exponent with
  | Zneg p => Qmake mantissa (Pos.pow 10 p)
  | _ => inject_Z (mantissa * 10 ^ exponent)
  end.

Definition read_sign (s : string) : bool * string :=
  match s with
  | String "-" rest => (true, rest)
  | String "+" rest => (false, rest)
  | _ => (false, s)
  end.

(** The optional ExponentPart: taken only when at least one digit follows the
    [e] and its sign. *)
Definition read_exponent (s : string) : Z * string :=
  match s with
  | String c rest =>
      if Ascii.eqb c "e" || Ascii.eqb c "E" then
        let '(negative, digits) := read_sign rest in
        match read_digits 10 digits 0 0 with
        | (_, O, _) => (0%Z, s)
        | (e, _, after) => ((if negative then - e else e)%Z, after)
        end
      else (0%Z, s)
  | EmptyString => (0%Z, s)
  end.

(** The longest prefix of [s] that is a StrUnsignedDecimalLiteral, with the
    rest of the string; [None] when no prefix is one. *)
Definition read_unsigned (s : string) : option (number * string) :=
  if String.prefix "Infinity" s
  then Some (Infinity false, String.substring 8 (String.length s - 8) s)
  else
    let '(int_part, int_digits, after_int) := read_digits 10 s 0 0 in
    let '(mantissa, frac_digits, after_frac) :=
      match after_int with
      | String "." rest => read_digits 10 rest int_part 0
      | _ => (int_part, 0, after_int)
      end in
    if (int_digits + frac_digits =? 0) then None
    else
      let '(e, rest) := read_exponent after_frac in
      Some (Finite (scale10 mantissa (e - Z.of_nat frac_digits)), rest).

Definition negate (n : number) : number :=
  match n with
  | NaN => NaN
  | Infinity negative => Infinity (negb negative)
  | Finite q => Finite (- q)
  end.

(** The longest prefix of [s] that is a StrDecimalLiteral. *)
Definition read_decimal (s : string) : option (number * string) :=
  let '(negative, body) := read_sign s in
  match read_unsigned body with
  | Some (n, rest) => Some (if negative then negate n else n, rest)
  | None => None
  end.

(** [parseFloat(s)] on a string. *)
Definition parseFloat_string (s : string) : number :=
  match read_decimal (trimStart s) with
  | Some (n, _) => n
  | None => NaN
  end.

(** [parseFloat(v)]: the argument is first converted to a string; the string
    of a number reads back as that number, and ["undefined"], ["null"],
    ["true"], ["false"] and ["NaN"] do not start with a numeral. *)
Definition parseFloat (v : value) : number :=
  match v with
  | JNum n => n
  | JStr s => parseFloat_string s
  | _ => NaN
  end.

(** A literal in radix 2, 8 or 16 after its two-character prefix. *)
Definition read_radix (radix : nat) (digits : string) : number :=
  match read_digits radix digits 0 0 with
  | (_, O, _) => NaN
  | (n, _, EmptyString) => Finite (inject_Z n)
  | _ => NaN
  end.

(** StringToNumber. *)
Definition ToNumber_string (s : string) : number :=
  let t := trim s in
  match t with
  | EmptyString => Finite 0
  | String "0" (String p digits) =>
      if Ascii.eqb p "x" || Ascii.eqb p "X" then read_radix 16 digits
      else if Ascii.eqb p "o" || Ascii.eqb p "O" then read_radix 8 digits
      else if Ascii.eqb p "b" || Ascii.eqb p "B" then read_radix 2 digits
      else match read_decimal t with
           | Some (n, EmptyString) => n
           | _ => NaN
           end
  | _ => match read_decimal t with
         | Some (n, EmptyString) => n
         | _ => NaN
         end
  end.

(** ToNumber. *)
Definition ToNumber (v : value) : number :=
  match v with
  | JUndefined => NaN
  | JNull => Finite 0
  | JBool b => Finite (if b then 1 else 0)
  | JNum n => n
  | JStr s => ToNumber_string s
  end.

(** [a >= b] where [a] is a number and [b] any scalar: [b] is converted with
    ToNumber. *)
Definition ge_value (a : number) (b : value) : bool := num_ge a (ToNumber b).

End JS.

(** ** The data model *)

Inductive Status := pending | promoted | verified | rejected.

Inductive Mode := centralized | decentralized.

#[global] Instance Status_eq_dec : EqDecision Status.
Proof. solve_decision. Defined.

#[global] Instance Mode_eq_dec : EqDecision Mode.
Proof. solve_decision. Defined.

Module Verification.
Record t := make {
  id : string;
  dealId : string;
  verifierId : string;
  verifierUsername : string;
  verdict : JS.value;
  evidence : JS.value;
  timestamp : Z
}.
End Verification.

Module Deal.
Record t := make {
  id : string;
  title : string;
  price : JS.number;
  originalPrice : option JS.number;
  url : string;
  productCategory : string;
  submittedBy : string;
  submittedByUsername : string;
  timestamp : Z;
  verifications : list Verification.t;
  votes : nat;
  status : Status;
  promotedAt : option Z;
  verifiedAt : option Z
}.

Definition set_verifications (vs : list Verification.t) (d : t) : t :=
  make (id d) (title d) (price d) (originalPrice d) (url d) (productCategory d)
       (submittedBy d) (submittedByUsername d) (timestamp d) vs (votes d)
       (status d) (promotedAt d) (verifiedAt d).

Definition set_votes (n : nat) (d : t) : t :=
  make (id d) (title d) (price d) (originalPrice d) (url d) (productCategory d)
       (submittedBy d) (submittedByUsername d) (timestamp d) (verifications d) n
       (status d) (promotedAt d) (verifiedAt d).

Definition set_status (st : Status) (d : t) : t :=
  make (id d) (title d) (price d) (originalPrice d) (url d) (productCategory d)
       (submittedBy d) (submittedByUsername d) (timestamp d) (verifications d)
       (votes d) st (promotedAt d) (verifiedAt d).

Definition set_promotedAt (at_ : option Z) (d : t) : t :=
  make (id d) (title d) (price d) (originalPrice d) (url d) (productCategory d)
       (submittedBy d) (submittedByUsername d) (timestamp d) (verifications d)
       (votes d) (status d) at_ (verifiedAt d).

Definition set_verifiedAt (at_ : option Z) (d : t) : t :=
  make (id d) (title d) (price d) (originalPrice d) (url d) (productCategory d)
       (submittedBy d) (submittedByUsername d) (timestamp d) (verifications d)
       (votes d) (status d) (promotedAt d) at_.
End Deal.

Module User.
Record t := make {
  id : string;
  username : string;
  reputationScore : nat;
  verificationHistory : list string;
  createdAt : Z
}.

Definition set_verificationHistory (h : list string) (u : t) : t :=
  make (id u) (username u) (reputationScore u) h (createdAt u).
End User.

Module Alert.
Record t := make {
  id : string;
  userId : string;
  productKeywords : string;
  maxPrice : JS.number;
  minVerifications : JS.value;
  createdAt : Z;
  triggered : list string
}.

Definition set_triggered (ids : list string) (a : t) : t :=
  make (id a) (userId a) (productKeywords a) (maxPrice a) (minVerifications a)
       (createdAt a) ids.
End Alert.

Module Config.
Record t := make {
  mode : Mode;
  promotionThreshold : nat;
  promotionDelay : Z;
  promotionDelaySimulated : Z
}.

Definition set_mode (m : Mode) (c : t) : t :=
  make m (promotionThreshold c) (promotionDelay c) (promotionDelaySimulated c).
End Config.

Module Notification.
Record t := make {
  alertId : string;
  dealId : string;
  userId : string;
  deal : Deal.t;
  timestamp : Z;
  latency : Z
}.
End Notification.

(** What [broadcast] sends: the message is serialised at the call, so it
    carries the deal as it is at that moment. *)
Inductive Message :=
| NEW_DEAL (deal : Deal.t)
| DEAL_PROMOTED (deal : Deal.t)
| DEAL_UPDATED (deal : Deal.t)
| DEAL_VERIFIED (deal : Deal.t)
| DEAL_REJECTED (deal : Deal.t)
| ALERT_TRIGGERED (notification : Notification.t)
| CONFIG_UPDATED (config : Config.t).

(** The observable trace of a step: the broadcasts, in order, and a mark at
    each entry into [checkAlertsForDeal] with the deal it is called on. *)
Inductive Effect :=
| Broadcast (message : Message)
| AlertScan (deal : Deal.t).

(** ** The alert store: a [Map] read in insertion order *)

Section OrderedMap.
Context {A : Type}.

(** [map.get(k)]. *)
Fixpoint omap_get (k : string) (m : list (string * A)) : option A :=
  match m with
  | [] => None
  | (k', v) :: rest => if String.eqb k' k then Some v else omap_get k rest
  end.

(** [map.set(k, v)]: an existing key keeps its place. *)
Fixpoint omap_set (k : string) (v : A) (m : list (string * A)) : list (string * A) :=
  match m with
  | [] => [(k, v)]
  | (k', v') :: rest =>
      if String.eqb k' k then (k, v) :: rest else (k', v') :: omap_set k v rest
  end.

(** [map.has(k)]. *)
Definition omap_has (k : string) (m : list (string * A)) : bool :=
  match omap_get k m with Some _ => true | None => false end.

(** [map.delete(k)]. *)
Definition omap_delete (k : string) (m : list (string * A)) : list (string * A) :=
  List.filter (fun kv => negb (String.eqb (fst kv) k)) m.
End OrderedMap.

(** ** The server *)

(** The [state] object of the source, and the promotion checks that
    [setTimeout] holds and has not run yet (deal ids, in scheduling order). *)
Record Server := mkServer {
  deals : gmap string Deal.t;
  users : gmap string User.t;
  verifications : gmap string Verification.t;
  alerts : list (string * Alert.t);
  config : Config.t;
  timers : list string
}.

Definition set_deals (m : gmap string Deal.t) (s : Server) : Server :=
  mkServer m (users s) (verifications s) (alerts s) (config s) (timers s).

Definition set_users (m : gmap string User.t) (s : Server) : Server :=
  mkServer (deals s) m (verifications s) (alerts s) (config s) (timers s).

Definition set_verifications (m : gmap string Verification.t) (s : Server) : Server :=
  mkServer (deals s) (users s) m (alerts s) (config s) (timers s).

Definition set_alerts (m : list (string * Alert.t)) (s : Server) : Server :=
  mkServer (deals s) (users s) (verifications s) m (config s) (timers s).

Definition set_config (c : Config.t) (s : Server) : Server :=
  mkServer (deals s) (users s) (verifications s) (alerts s) c (timers s).

Definition set_timers (t : list string) (s : Server) : Server :=
  mkServer (deals s) (users s) (verifications s) (alerts s) (config s) t.

(** The store at start-up. *)
Definition initial : Server :=
  mkServer ∅ ∅ ∅ []
    (Config.make centralized 5 (4 * 60 * 60 * 1000) 10000) [].

(** Response payloads. *)
Inductive Payload :=
| UserCreated (user : User.t)
| DealCreated (deal : Deal.t)
| DealVoted (deal : Deal.t)
| DealVerified (verification : Verification.t) (deal : Deal.t)
| AlertCreated (alert : Alert.t)
| AlertDeleted (success : bool)
| ConfigSet (config : Config.t).

Inductive Response :=
| Ok (body : Payload)
| Error (code : nat) (error : string)
| NoResponse.

(** ** Text fields of a request body *)

(** The negation of [!field]: true exactly for a non-empty string. *)
Definition present (field : option string) : bool :=
  match field with
  | Some s => negb (String.eqb s EmptyString)
  | None => false
  end.

(** [users.get(field)]: an absent field is the key [undefined], which no user
    is stored under. *)
Definition lookup_field {A} (field : option string) (m : gmap string A) : option A :=
  match field with
  | Some k => m !! k
  | None => None
  end.

(** ** Alert matching *)

Definition keywordsMatch (deal : Deal.t) (alert : Alert.t) : bool :=
  JS.includes (JS.toLowerCase (Deal.title deal)) (Alert.productKeywords alert)
  || JS.includes (JS.toLowerCase (Deal.productCategory deal)) (Alert.productKeywords alert).

Definition priceMatch (deal : Deal.t) (alert : Alert.t) : bool :=
  JS.num_le (Deal.price deal) (Alert.maxPrice alert).

Definition verificationMatch (deal : Deal.t) (alert : Alert.t) : bool :=
  JS.ge_value (JS.of_nat (length (Deal.verifications deal))) (Alert.minVerifications alert).

(** [list.includes(id)]. *)
Definition includes_id (ids : list string) (id : string) : bool :=
  existsb (String.eqb id) ids.

(** The body of the [forEach] in [checkAlertsForDeal]. *)
Definition check_alert (deal : Deal.t) (now : Z) (alert : Alert.t) : Alert.t * list Effect :=
  if keywordsMatch deal alert && priceMatch deal alert && verificationMatch deal alert then
    if negb (includes_id (Alert.triggered alert) (Deal.id deal)) then
      let alert' := Alert.set_triggered (Alert.triggered alert ++ [Deal.id deal]) alert in
      let notification :=
        Notification.make (Alert.id alert) (Deal.id deal) (Alert.userId alert) deal
                          now (now - Deal.timestamp deal) in
      (alert', [Broadcast (ALERT_TRIGGERED notification)])
    else (alert, [])
  else (alert, []).

Fixpoint forEach_alert (deal : Deal.t) (now : Z) (m : list (string * Alert.t))
  : list (string * Alert.t) * list Effect :=
  match m with
  | [] => ([], [])
  | (k, alert) :: rest =>
      let '(alert', sent) := check_alert deal now alert in
      let '(rest', sent') := forEach_alert deal now rest in
      ((k, alert') :: rest', sent ++ sent')
  end.

Definition checkAlertsForDeal (deal : Deal.t) (now : Z) (m : list (string * Alert.t))
  : list (string * Alert.t) * list Effect :=
  let '(m', sent) := forEach_alert deal now m in
  (m', AlertScan deal :: sent).

(** ** Promotion and consensus *)

Definition CONSENSUS_THRESHOLD : nat := 3.

Definition is_pending (st : Status) : bool := bool_decide (st = pending).

Definition count_verdict (text : string) (vs : list Verification.t) : nat :=
  length (List.filter (fun v => JS.is_string (Verification.verdict v) text) vs).

(** [checkConsensus(deal)]: the deal object and the alert store it may touch
    are passed in and returned. *)
Definition checkConsensus (deal : Deal.t) (now : Z) (m : list (string * Alert.t))
  : Deal.t * list (string * Alert.t) * list Effect :=
  let validVerifications := count_verdict "valid" (Deal.verifications deal) in
  let invalidVerifications := count_verdict "invalid" (Deal.verifications deal) in
  if (CONSENSUS_THRESHOLD <=? validVerifications) && is_pending (Deal.status deal) then
    let deal' := Deal.set_verifiedAt (Some now) (Deal.set_status verified deal) in
    let '(m', sent) := checkAlertsForDeal deal' now m in
    (deal', m', Broadcast (DEAL_VERIFIED deal') :: sent)
  else if (CONSENSUS_THRESHOLD <=? invalidVerifications) && is_pending (Deal.status deal) then
    let deal' := Deal.set_status rejected deal in
    (deal', m, [Broadcast (DEAL_REJECTED deal')])
  else (deal, m, []).

(** [checkPromotion(dealId)], the callback of the timer. *)
Definition checkPromotion (dealId : string) (now : Z) (s : Server) : Server * list Effect :=
  match deals s !! dealId with
  | None => (s, [])
  | Some deal =>
      if negb (is_pending (Deal.status deal)) then (s, [])
      else if Config.promotionThreshold (config s) <=? Deal.votes deal then
        let deal' := Deal.set_promotedAt (Some now) (Deal.set_status promoted deal) in
        let '(m', sent) := checkAlertsForDeal deal' now (alerts s) in
        (set_alerts m' (set_deals (<[dealId := deal']> (deals s)) s),
         Broadcast (DEAL_PROMOTED deal') :: sent)
      else (s, [])
  end.

(** ** Request handlers *)

Module Body.
Record register := { username : option string }.

Record deal := {
  title : option string;
  price : JS.value;
  originalPrice : JS.value;
  url : option string;
  productCategory : option string;
  submittedBy : option string
}.

Record verify := {
  userId : option string;
  verdict : JS.value;
  evidence : JS.value
}.

Record alert := {
  alert_userId : option string;
  productKeywords : option string;
  maxPrice : JS.value;
  minVerifications : JS.value
}.
End Body.

(** The value of a text field that passed the [!field] test. *)
Definition text (field : option string) : string := default EmptyString field.

(** POST /api/users/register *)
Definition post_users_register (body : Body.register) (userId : string) (now : Z)
    (s : Server) : Response * Server * list Effect :=
  if negb (present (Body.username body))
     || (String.length (JS.trim (text (Body.username body))) =? 0)
  then (Error 400 "Username required", s, [])
  else if existsb (fun kv => String.eqb (User.username (snd kv)) (text (Body.username body)))
                  (map_to_list (users s))
  then (Error 409 "Username already exists", s, [])
  else
    let user := User.make userId (JS.trim (text (Body.username body))) 100 [] now in
    (Ok (UserCreated user), set_users (<[userId := user]> (users s)) s, []).

(** POST /api/deals *)
Definition post_deals (body : Body.deal) (dealId : string) (now : Z)
    (s : Server) : Response * Server * list Effect :=
  if negb (present (Body.title body)) || negb (JS.truthy (Body.price body))
     || negb (present (Body.url body)) || negb (present (Body.submittedBy body))
  then (Error 400 "Missing required fields", s, [])
  else
    match lookup_field (Body.submittedBy body) (users s) with
    | None => (Error 404 "User not found", s, [])
    | Some user =>
        let deal :=
          Deal.make dealId (text (Body.title body)) (JS.parseFloat (Body.price body))
            (if JS.truthy (Body.originalPrice body)
             then Some (JS.parseFloat (Body.originalPrice body)) else None)
            (text (Body.url body))
            (if present (Body.productCategory body)
             then text (Body.productCategory body) else "General")
            (text (Body.submittedBy body)) (User.username user) now [] 0 pending None None in
        let s1 := set_deals (<[dealId := deal]> (deals s)) s in
        let s2 := if bool_decide (Config.mode (config s1) = centralized)
                  then set_timers (timers s1 ++ [dealId]) s1 else s1 in
        (Ok (DealCreated deal), s2, [Broadcast (NEW_DEAL deal)])
    end.

(** POST /api/deals/:dealId/vote *)
Definition post_deals_vote (dealId : string) (userId : option string)
    (s : Server) : Response * Server * list Effect :=
  match deals s !! dealId with
  | None => (Error 404 "Deal not found", s, [])
  | Some deal =>
      match lookup_field userId (users s) with
      | None => (Error 404 "User not found", s, [])
      | Some user =>
          let deal' := Deal.set_votes (Deal.votes deal + 1) deal in
          (Ok (DealVoted deal'), set_deals (<[dealId := deal']> (deals s)) s,
           [Broadcast (DEAL_UPDATED deal')])
      end
  end.

(** POST /api/deals/:dealId/verify *)
Definition post_deals_verify (dealId : string) (body : Body.verify)
    (verificationId : string) (now : Z) (s : Server) : Response * Server * list Effect :=
  match deals s !! dealId with
  | None => (Error 404 "Deal not found", s, [])
  | Some deal =>
      match Body.userId body, lookup_field (Body.userId body) (users s) with
      | Some userId, Some user =>
          if existsb (fun v => String.eqb (Verification.verifierId v) userId)
                     (Deal.verifications deal)
          then (Error 409 "You already verified this deal", s, [])
          else
            let verification :=
              Verification.make verificationId (Deal.id deal) userId (User.username user)
                (Body.verdict body) (JS.or_else (Body.evidence body) (JS.JStr EmptyString)) now in
            let deal1 := Deal.set_verifications (Deal.verifications deal ++ [verification]) deal in
            let user' := User.set_verificationHistory
                           (User.verificationHistory user ++ [Verification.id verification]) user in
            let '(deal2, m', sent) :=
              if bool_decide (Config.mode (config s) = decentralized)
              then checkConsensus deal1 now (alerts s)
              else (deal1, alerts s, []) in
            (Ok (DealVerified verification deal2),
             set_alerts m'
               (set_users (<[userId := user']> (users s))
                  (set_verifications (<[verificationId := verification]> (verifications s))
                     (set_deals (<[dealId := deal2]> (deals s)) s))),
             sent ++ [Broadcast (DEAL_UPDATED deal2)])
      | _, _ => (Error 404 "User not found", s, [])
      end
  end.

(** POST /api/alerts *)
Definition post_alerts (body : Body.alert) (alertId : string) (now : Z)
    (s : Server) : Response * Server * list Effect :=
  if negb (present (Body.alert_userId body)) || negb (present (Body.productKeywords body))
     || negb (JS.truthy (Body.maxPrice body))
  then (Error 400 "Missing required fields", s, [])
  else
    match lookup_field (Body.alert_userId body) (users s) with
    | None => (Error 404 "User not found", s, [])
    | Some user =>
        let alert :=
          Alert.make alertId (text (Body.alert_userId body))
            (JS.toLowerCase (text (Body.productKeywords body)))
            (JS.parseFloat (Body.maxPrice body))
            (JS.or_else (Body.minVerifications body) (JS.JNum (JS.of_nat 3)))
            now [] in
        (Ok (AlertCreated alert), set_alerts (omap_set alertId alert (alerts s)) s, [])
    end.

(** DELETE /api/alerts/:alertId *)
Definition delete_alerts (alertId : string) (s : Server) : Response * Server * list Effect :=
  (Ok (AlertDeleted (omap_has alertId (alerts s))),
   set_alerts (omap_delete alertId (alerts s)) s, []).

(** POST /api/config/mode *)
Definition post_config_mode (mode : JS.value) (s : Server) : Response * Server * list Effect :=
  if negb (JS.is_string mode "centralized") && negb (JS.is_string mode "decentralized")
  then (Error 400 "Mode must be centralized or decentralized", s, [])
  else
    let config' := Config.set_mode (if JS.is_string mode "centralized"
                                    then centralized else decentralized) (config s) in
    (Ok (ConfigSet config'), set_config config' s, [Broadcast (CONFIG_UPDATED config')]).

(** Removes the first occurrence of [k]. *)
Fixpoint remove_first (k : string) (l : list string) : list string :=
  match l with
  | [] => []
  | x :: rest => if String.eqb x k then rest else x :: remove_first k rest
  end.

(** A promotion check that [setTimeout] holds for [dealId] comes due; nothing
    happens when none is held. *)
Definition timer_due (dealId : string) (now : Z) (s : Server) : Response * Server * list Effect :=
  if includes_id (timers s) dealId then
    let '(s', sent) := checkPromotion dealId now (set_timers (remove_first dealId (timers s)) s) in
    (NoResponse, s', sent)
  else (NoResponse, s, []).

(** What can happen to the server: a mutating request, with the identifier
    [uuidv4()] draws and the time [Date.now()] reads while serving it, or a
    timer coming due. *)
Inductive Request :=
| POST_users_register (body : Body.register) (uuid : string) (now : Z)
| POST_deals (body : Body.deal) (uuid : string) (now : Z)
| POST_deals_vote (dealId : string) (userId : option string)
| POST_deals_verify (dealId : string) (body : Body.verify) (uuid : string) (now : Z)
| POST_alerts (body : Body.alert) (uuid : string) (now : Z)
| DELETE_alerts (alertId : string)
| POST_config_mode (mode : JS.value)
| TimerDue (dealId : string) (now : Z).

Definition handle (r : Request) (s : Server) : Response * Server * list Effect :=
  match r with
  | POST_users_register body uuid now => post_users_register body uuid now s
  | POST_deals body uuid now => post_deals body uuid now s
  | POST_deals_vote dealId userId => post_deals_vote dealId userId s
  | POST_deals_verify dealId body uuid now => post_deals_verify dealId body uuid now s
  | POST_alerts body uuid now => post_alerts body uuid now s
  | DELETE_alerts alertId => delete_alerts alertId s
  | POST_config_mode mode => post_config_mode mode s
  | TimerDue dealId now => timer_due dealId now s
  end.

Definition next (r : Request) (s : Server) : Server := snd (fst (handle r s)).
Definition response (r : Request) (s : Server) : Response := fst (fst (handle r s)).
Definition effects (r : Request) (s : Server) : list Effect := snd (handle r s).

(** Serving a sequence of requests, one after the other. *)
Fixpoint run (rs : list Request) (s : Server) : Server :=
  match rs with
  | [] => s
  | r :: rest => run rest (next r s)
  end.

(** Everything sent while serving them. *)
Fixpoint trace (rs : list Request) (s : Server) : list Effect :=
  match rs with
  | [] => []
  | r :: rest => effects r s ++ trace rest (next r s)
  end.

(** ** Status transitions *)

(** The three moves the status of a deal can make. *)
Inductive transition : Status -> Status -> Prop :=
| promote : transition pending promoted
| verify : transition pending verified
| reject : transition pending rejected.

(** A status history: nothing happened, or one move out of [pending]. *)
Definition evolves (before after : Status) : Prop :=
  after = before \/ transition before after.

(** What one step may do to a deal that is already stored: its identity is
    kept, its status moves one way, verifications are only appended. *)
Definition deal_keeps (d d' : Deal.t) : Prop :=
  Deal.id d' = Deal.id d
  /\ evolves (Deal.status d) (Deal.status d')
  /\ exists more, Deal.verifications d' = Deal.verifications d ++ more.

(** [uuidv4()] is taken to return an identifier that no deal is stored under:
    the source relies on it when it calls [state.deals.set(dealId, deal)]. *)
Definition fresh_uuid (r : Request) (s : Server) : Prop :=
  match r with
  | POST_deals _ uuid _ => deals s !! uuid = None
  | _ => True
  end.

Fixpoint fresh_run (rs : list Request) (s : Server) : Prop :=
  match rs with
  | [] => True
  | r :: rest => fresh_uuid r s /\ fresh_run rest (next r s)
  end.

#[global] Instance fresh_uuid_dec r s : Decision (fresh_uuid r s).
Proof. destruct r; simpl; apply _. Defined.

#[global] Instance fresh_run_dec rs s : Decision (fresh_run rs s).
Proof. revert s; induction rs; simpl; intros; apply _. Defined.

(** ** A worked scenario

    Four registered users; user [u1] submits the deal of the README
    walk-through, under either mode. *)

Definition register_as (name uuid : string) : Request :=
  POST_users_register {| Body.username := Some name |} uuid 1000.

Definition registered : Server :=
  run [register_as "alice" "u1"; register_as "bob" "u2";
       register_as "carol" "u3"; register_as "dave" "u4"] initial.

Definition rtx_draft : Body.deal :=
  {| Body.title := Some "RTX 4080 $650";
     Body.price := JS.JStr "650";
     Body.originalPrice := JS.JStr "1199.99";
     Body.url := Some "https://shop.example/rtx-4080";
     Body.productCategory := Some "Electronics";
     Body.submittedBy := Some "u1" |}.

Definition submit_rtx : Request := POST_deals rtx_draft "d1" 2000.

Definition electronics_alert : Request :=
  POST_alerts {| Body.alert_userId := Some "u2";
                 Body.productKeywords := Some "Electronics";
                 Body.maxPrice := JS.JStr "700";
                 Body.minVerifications := JS.JStr "3" |} "a1" 2500.

Definition verdict_body (user verdict : string) : Body.verify :=
  {| Body.userId := Some user; Body.verdict := JS.JStr verdict;
     Body.evidence := JS.JNull |}.

Definition verdict_by (user verdict uuid : string) (now : Z) : Request :=
  POST_deals_verify "d1" (verdict_body user verdict) uuid now.

Definition vote_by (user : string) : Request := POST_deals_vote "d1" (Some user).

(** The deal as [submit_rtx] stores it. *)
Definition rtx_deal : Deal.t :=
  Deal.make "d1" "RTX 4080 $650" (JS.Finite 650) (Some (JS.Finite (119999 # 100)))
    "https://shop.example/rtx-4080" "Electronics" "u1" "alice" 2000 [] 0 pending None None.

(** The store in decentralized mode, with the alert and the deal. *)
Definition decentralized_market : Server :=
  run [POST_config_mode (JS.JStr "decentralized"); electronics_alert; submit_rtx] registered.

(** The store in centralized mode, with the alert and the deal. *)
Definition centralized_market : Server :=
  run [electronics_alert; submit_rtx] registered.

(** The deal after two and after three 'valid' verdicts, decentralized. *)
Definition two_valid : Server :=
  run [verdict_by "u2" "valid" "v1" 3000; verdict_by "u3" "valid" "v2" 3100]
      decentralized_market.

Definition third_valid : Request := verdict_by "u4" "valid" "v3" 3200.

Definition rtx_two_valid : Deal.t :=
  Eval vm_compute in default rtx_deal (deals two_valid !! "d1").

Definition third_verification : Verification.t :=
  Verification.make "v3" "d1" "u4" "dave" (JS.JStr "valid") (JS.JStr EmptyString) 3200.

Definition rtx_verified : Deal.t :=
  Eval vm_compute in default rtx_deal (deals (next third_valid two_valid) !! "d1").

(** ** Scheduled promotion checks *)

(** How many promotion checks the timer queue holds for deal [k]. *)
Definition pending_checks (k : string) (s : Server) : nat :=
  length (List.filter (String.eqb k) (timers s)).

(** The timer queue only holds identifiers of stored deals. *)
Definition timers_stored (s : Server) : Prop :=
  Forall (fun k => is_Some (deals s !! k)) (timers s).



(** The store in centralized mode with the alert, before the deal is
    submitted. *)
Definition centralized_alerted : Server := run [electronics_alert] registered.

(** Two of the five votes arrive before the check; more votes, a second
    firing and a verification come after it. *)
Definition two_votes : list Request := [vote_by "u2"; vote_by "u3"].

Definition late_activity : list Request :=
  [vote_by "u4"; vote_by "u2"; vote_by "u3"; vote_by "u1"; vote_by "u4";
   TimerDue "d1" 30000; verdict_by "u2" "valid" "v1" 31000;
   POST_config_mode (JS.JStr "centralized")].

(** Five votes come in, then the mode is switched, while the promotion check
    of the deal is still in the timer queue. *)
Definition switched_market : Server :=
  run [vote_by "u1"; vote_by "u2"; vote_by "u3"; vote_by "u4"; vote_by "u2";
       POST_config_mode (JS.JStr "decentralized")] centralized_market.

(** The reading of the rule selection under test: whenever a step moves a
    pending deal, a promotion happens under centralized mode and a consensus
    outcome under decentralized mode, the mode being the one in force when the
    step is served. *)
Definition rule_follows_current_mode : Prop :=
  forall (s : Server) (r : Request) (k : string) (d d' : Deal.t),
    deals s !! k = Some d -> deals (next r s) !! k = Some d' ->
    Deal.status d = pending ->
    (Deal.status d' = promoted -> Config.mode (config s) = centralized)
    /\ (Deal.status d' = verified \/ Deal.status d' = rejected ->
        Config.mode (config s) = decentralized).

(** ** Reading the trace *)

(** Is [e] the alert-triggered notification of alert [k] for deal [d]? *)
Definition is_trigger (k d : string) (e : Effect) : bool :=
  match e with
  | Broadcast (ALERT_TRIGGERED n) =>
      String.eqb (Notification.alertId n) k && String.eqb (Notification.dealId n) d
  | _ => false
  end.

(** How many times alert [k] was triggered for deal [d] in a trace. *)
Definition fired (k d : string) (es : list Effect) : nat :=
  length (List.filter (is_trigger k d) es).

(** The deals [checkAlertsForDeal] was entered with, in order. *)
Fixpoint alert_scans (es : list Effect) : list Deal.t :=
  match es with
  | [] => []
  | AlertScan deal :: rest => deal :: alert_scans rest
  | Broadcast _ :: rest => alert_scans rest
  end.

(** An effect that is neither an alert notification nor a scan mark. *)
Definition plain (e : Effect) : bool :=
  match e with
  | Broadcast (ALERT_TRIGGERED _) | AlertScan _ => false
  | Broadcast _ => true
  end.

(** ** The alert store is well formed

    Every alert sits under its own identifier, once, and its keyword phrase is
    in lower case: [POST /api/alerts] stores it so and nothing rewrites it. *)
Definition alert_wf (kv : string * Alert.t) : Prop :=
  Alert.id kv.2 = kv.1
  /\ JS.toLowerCase (Alert.productKeywords kv.2) = Alert.productKeywords kv.2.

Definition alerts_wf (m : list (string * Alert.t)) : Prop :=
  NoDup (map fst m) /\ Forall alert_wf m.

(** ** The matching rule in the words of the specification *)



(** What a step that does not scan the alerts may do to the alert store. *)
Definition alerts_edit (r : Request) (before after : list (string * Alert.t)) : Prop :=
  after = before
  \/ (exists body uuid now a,
        r = POST_alerts body uuid now /\ alert_wf (uuid, a) /\ Alert.triggered a = []
        /\ after = omap_set uuid a before)
  \/ (exists alertId, r = DELETE_alerts alertId /\ after = omap_delete alertId before).

(** A step without alert scan: nothing is notified, and no stored deal makes a
    move other than to [rejected]. *)
Definition quiet_step (r : Request) (s : Server) : Prop :=
  alert_scans (effects r s) = []
  /\ (forall k d, fired k d (effects r s) = 0)
  /\ alerts_edit r (alerts s) (alerts (next r s))
  /\ (forall key d0 d1,
        fresh_uuid r s ->
        deals s !! key = Some d0 -> deals (next r s) !! key = Some d1 ->
        Deal.status d1 = Deal.status d0
        \/ (Deal.status d0 = pending /\ Deal.status d1 = rejected)).

(** A step with an alert scan: one pending deal has just been promoted or
    verified, and the alerts are scanned once, for that deal as it is stored. *)
Definition scan_step (r : Request) (s : Server) : Prop :=
  exists key d0 d1 now,
    deals s !! key = Some d0 /\ Deal.status d0 = pending
    /\ deals (next r s) !! key = Some d1
    /\ (Deal.status d1 = promoted \/ Deal.status d1 = verified)
    /\ (forall key', key' <> key -> deals (next r s) !! key' = deals s !! key')
    /\ alerts (next r s) = (forEach_alert d1 now (alerts s)).1
    /\ alert_scans (effects r s) = [d1]
    /\ (forall k d, fired k d (effects r s) = fired k d (forEach_alert d1 now (alerts s)).2).

(** How many notifications alert [k] can still send for deal [d]: one while
    the alert is stored and [d] is not in its triggered list, none otherwise. *)
Definition budget (k d : string) (s : Server) : nat :=
  match omap_get k (alerts s) with
  | Some a => if includes_id (Alert.triggered a) d then 0 else 1
  | None => 0
  end.

(** [uuidv4()] does not hand out the identifier of alert [k] a second time. *)
Definition not_recreating (k : string) (r : Request) : Prop :=
  match r with
  | POST_alerts _ uuid _ => uuid <> k
  | _ => True
  end.

(** The alert as [electronics_alert] stores it. *)
Definition stored_alert : Alert.t :=
  Alert.make "a1" "u2" "electronics" (JS.Finite 700) (JS.JStr "3") 2500 [].

(** Three 'valid' verdicts, then a fourth one and another timer. *)
Definition four_valid : list Request :=
  [verdict_by "u2" "valid" "v1" 3000; verdict_by "u3" "valid" "v2" 3100;
   verdict_by "u4" "valid" "v3" 3200; verdict_by "u1" "valid" "v4" 3300;
   TimerDue "d1" 12000].

(** An alert created with the minimum-verification field left out. *)
Definition default_alert_body : Body.alert :=
  {| Body.alert_userId := Some "u2";
     Body.productKeywords := Some "RTX";
     Body.maxPrice := JS.JNum (JS.Finite 700);
     Body.minVerifications := JS.JUndefined |}.

Definition default_alert : Alert.t :=
  Alert.make "a2" "u2" "rtx" (JS.Finite 700) (JS.JNum (JS.of_nat 3)) 2600 [].


(** ** Submission drafts *)

(** A number that is greater than zero. *)
Definition positive (n : JS.number) : bool :=
  match n with
  | JS.Finite q => negb (Qle_bool q 0)
  | JS.Infinity negative => negb negative
  | JS.NaN => false
  end.

(** A text field that is absent or empty. *)
Definition absent (field : option string) : Prop :=
  field = None \/ field = Some EmptyString.

(** The validation rule under test: a draft with a missing title, price, URL
    or submitter, or whose price is not a positive number, is refused with
    status 400 and leaves the store as it is; any other draft creates a pending
    deal with no vote and no verification. *)
Definition submit_validates_positive_price : Prop :=
  forall (s : Server) (body : Body.deal) (uuid : string) (now : Z),
    (absent (Body.title body) \/ Body.price body = JS.JUndefined
     \/ absent (Body.url body) \/ absent (Body.submittedBy body)
     \/ positive (JS.parseFloat (Body.price body)) = false ->
     exists error, handle (POST_deals body uuid now) s = (Error 400 error, s, []))
    /\ (~ (absent (Body.title body) \/ Body.price body = JS.JUndefined
           \/ absent (Body.url body) \/ absent (Body.submittedBy body)
           \/ positive (JS.parseFloat (Body.price body)) = false) ->
        exists deal, response (POST_deals body uuid now) s = Ok (DealCreated deal)
                     /\ Deal.status deal = pending /\ Deal.votes deal = 0
                     /\ Deal.verifications deal = []).

(** A draft with a negative price, and a sound draft from an unknown user. *)
Definition negative_draft : Body.deal :=
  {| Body.title := Some "Refund voucher";
     Body.price := JS.JNum (JS.Finite (-5));
     Body.originalPrice := JS.JUndefined;
     Body.url := Some "https://shop.example/voucher";
     Body.productCategory := None;
     Body.submittedBy := Some "u1" |}.

Definition stranger_draft : Body.deal :=
  {| Body.title := Some "RTX 4080 $650";
     Body.price := JS.JNum (JS.Finite 650);
     Body.originalPrice := JS.JUndefined;
     Body.url := Some "https://shop.example/rtx-4080";
     Body.productCategory := Some "Electronics";
     Body.submittedBy := Some "nobody" |}.

Definition negative_deal : Deal.t :=
  Deal.make "d2" "Refund voucher" (JS.Finite (-5)) None "https://shop.example/voucher"
    "General" "u1" "alice" 2000 [] 0 pending None None.

(** The first verification of the deal, by [u2], and the deal it leaves. *)
Definition first_verification : Verification.t :=
  Verification.make "v1" "d1" "u2" "bob" (JS.JStr "valid") (JS.JStr EmptyString) 3000.

Definition rtx_one_valid : Deal.t :=
  Deal.set_verifications [first_verification] rtx_deal.

(** ** Further scenarios and readings of the store *)

(** The same user votes [n] times for one deal. *)
Definition votes_by (n : nat) (dealId userId : string) : list Request :=
  replicate n (POST_deals_vote dealId (Some userId)).


(** The time [Date.now()] reads while a request is served. *)
Definition time_of (r : Request) : option Z :=
  match r with
  | POST_users_register _ _ now | POST_deals _ _ now | POST_deals_verify _ _ _ now
  | POST_alerts _ _ now | TimerDue _ now => Some now
  | POST_deals_vote _ _ | DELETE_alerts _ | POST_config_mode _ => None
  end.

(** The users who verified a deal, in order. *)
Definition verifiers (d : Deal.t) : list string :=
  map Verification.verifierId (Deal.verifications d).

(** Where the deal stored under [k] after a step comes from: [before] is what
    was stored under [k] before the step. *)
Inductive deal_change (r : Request) (k : string) : option Deal.t -> Deal.t -> Prop :=
| change_keep d :
    deal_change r k (Some d) d
| change_new before body now user d :
    r = POST_deals body k now ->
    Deal.id d = k -> Deal.timestamp d = now -> Deal.submittedByUsername d = user ->
    Deal.verifications d = [] -> Deal.votes d = 0 -> Deal.status d = pending ->
    Deal.promotedAt d = None -> Deal.verifiedAt d = None ->
    deal_change r k before d
| change_vote userId d :
    r = POST_deals_vote k userId ->
    deal_change r k (Some d) (Deal.set_votes (Deal.votes d + 1) d)
| change_verification body uuid now d v :
    r = POST_deals_verify k body uuid now ->
    Body.userId body = Some (Verification.verifierId v) ->
    Verification.verifierId v ∉ verifiers d ->
    deal_change r k (Some d) (Deal.set_verifications (Deal.verifications d ++ [v]) d)
| change_verified body uuid now d v :
    r = POST_deals_verify k body uuid now ->
    Body.userId body = Some (Verification.verifierId v) ->
    Verification.verifierId v ∉ verifiers d ->
    Deal.status d = pending ->
    deal_change r k (Some d)
      (Deal.set_verifiedAt (Some now)
         (Deal.set_status verified
            (Deal.set_verifications (Deal.verifications d ++ [v]) d)))
| change_rejected body uuid now d v :
    r = POST_deals_verify k body uuid now ->
    Body.userId body = Some (Verification.verifierId v) ->
    Verification.verifierId v ∉ verifiers d ->
    Deal.status d = pending ->
    deal_change r k (Some d)
      (Deal.set_status rejected
         (Deal.set_verifications (Deal.verifications d ++ [v]) d))
| change_promoted now d :
    r = TimerDue k now ->
    Deal.status d = pending ->
    deal_change r k (Some d) (Deal.set_promotedAt (Some now) (Deal.set_status promoted d)).

(** No user has verified a stored deal twice. *)
Definition one_verdict_each (s : Server) : Prop :=
  map_Forall (fun _ d => NoDup (verifiers d)) (deals s).

(** A deal is stored under its own identifier. *)
Definition ids_keyed (s : Server) : Prop :=
  map_Forall (fun k d => Deal.id d = k) (deals s).

(** The promotion and verification times are set exactly on promoted and on
    verified deals. *)
Definition stamped (d : Deal.t) : Prop :=
  (is_Some (Deal.promotedAt d) <-> Deal.status d = promoted)
  /\ (is_Some (Deal.verifiedAt d) <-> Deal.status d = verified).

(** Users keep the reputation they start with and sit under their identifier. *)
Definition users_inert (s : Server) : Prop :=
  map_Forall (fun k u => User.id u = k /\ User.reputationScore u = 100) (users s).

(** A busy decentralized session: verdicts, a refused duplicate, votes, a
    timer and a late registration. *)
Definition busy_session : list Request :=
  [register_as "alice" "u1"; register_as "bob" "u2"; register_as "carol" "u3";
   register_as "dave" "u4"; POST_config_mode (JS.JStr "decentralized");
   electronics_alert; submit_rtx;
   verdict_by "u2" "valid" "v1" 3000; verdict_by "u2" "invalid" "v1b" 3050;
   verdict_by "u3" "valid" "v2" 3100; vote_by "u3";
   verdict_by "u4" "valid" "v3" 3200; verdict_by "u1" "invalid" "v4" 3300;
   TimerDue "d1" 12000; register_as "erin" "u5"].

(** The clock never runs backwards over the requests, starting from [t]. *)
Fixpoint monotone_clock (t : Z) (rs : list Request) : Prop :=
  match rs with
  | [] => True
  | r :: rest =>
      match time_of r with
      | Some now => (t <= now)%Z /\ monotone_clock now rest
      | None => monotone_clock t rest
      end
  end.

(** No stored deal was submitted after [t]. *)
Definition submitted_by (t : Z) (s : Server) : Prop :=
  map_Forall (fun _ d => (Deal.timestamp d <= t)%Z) (deals s).

(** The latency of an alert notification is not negative. *)
Definition latency_ok (e : Effect) : Prop :=
  match e with
  | Broadcast (ALERT_TRIGGERED n) => (0 <= Notification.latency n)%Z
  | _ => True
  end.

(** The notification [check_alert] sends for an alert and a deal. *)
Definition notification_of (a : Alert.t) (deal : Deal.t) (now : Z) : Notification.t :=
  Notification.make (Alert.id a) (Deal.id deal) (Alert.userId a) deal
                    now (now - Deal.timestamp deal).

(** A draft whose price is a text that is no numeral. *)
Definition cheap_draft : Body.deal :=
  {| Body.title := Some "Electronics clearance";
     Body.price := JS.JStr "cheap";
     Body.originalPrice := JS.JUndefined;
     Body.url := Some "https://shop.example/clearance";
     Body.productCategory := Some "Electronics";
     Body.submittedBy := Some "u1" |}.

Definition cheap_deal : Deal.t :=
  Deal.make "d7" "Electronics clearance" JS.NaN None "https://shop.example/clearance"
    "Electronics" "u1" "alice" 2700 [] 0 pending None None.

(** The decentralized store with a catch-all alert on "e", before any deal. *)
Definition watched_market : Server :=
  run [POST_config_mode (JS.JStr "decentralized");
       POST_alerts {| Body.alert_userId := Some "u2";
                      Body.productKeywords := Some "e";
                      Body.maxPrice := JS.JStr "Infinity";
                      Body.minVerifications := JS.JNum (JS.Finite 1) |} "a3" 2600]
      registered.

Definition verdicts_on (dealId : string) : list Request :=
  [POST_deals_verify dealId (verdict_body "u2" "valid") "w1" 3000;
   POST_deals_verify dealId (verdict_body "u3" "valid") "w2" 3100;
   POST_deals_verify dealId (verdict_body "u4" "valid") "w3" 3200].

(** The broadcasts of one step, in the order they are sent: nothing; one
    message about a deal or the configuration; a rejection and the update; or
    the success message of a deal, the notifications of the alert scan for
    that deal, and, after a verification, the update. *)
Inductive step_trace (r : Request) (s : Server) : list Effect -> Prop :=
| trace_silent :
    step_trace r s []
| trace_single m :
    plain (Broadcast m) = true ->
    step_trace r s [Broadcast m]
| trace_rejected d :
    Deal.status d = rejected ->
    step_trace r s [Broadcast (DEAL_REJECTED d); Broadcast (DEAL_UPDATED d)]
| trace_promoted key d0 now :
    r = TimerDue key now ->
    deals s !! key = Some d0 ->
    let d := Deal.set_promotedAt (Some now) (Deal.set_status promoted d0) in
    step_trace r s
      (Broadcast (DEAL_PROMOTED d) :: AlertScan d :: (forEach_alert d now (alerts s)).2)
| trace_verified key body uuid now d0 v :
    r = POST_deals_verify key body uuid now ->
    deals s !! key = Some d0 ->
    let d := Deal.set_verifiedAt (Some now)
               (Deal.set_status verified
                  (Deal.set_verifications (Deal.verifications d0 ++ [v]) d0)) in
    step_trace r s
      (Broadcast (DEAL_VERIFIED d) :: AlertScan d
       :: (forEach_alert d now (alerts s)).2 ++ [Broadcast (DEAL_UPDATED d)]).

(** A session served in the order of its clock readings. *)
Definition orderly_session : list Request :=
  [register_as "alice" "u1"; register_as "bob" "u2"; register_as "carol" "u3";
   register_as "dave" "u4"; POST_config_mode (JS.JStr "decentralized");
   submit_rtx; electronics_alert;
   verdict_by "u2" "valid" "v1" 3000; verdict_by "u3" "valid" "v2" 3100;
   verdict_by "u4" "valid" "v3" 3200; TimerDue "d1" 12000].

(** ** Read-only routes *)

(** GET /api/alerts/user/:userId *)
Definition get_alerts_user (userId : string) (s : Server) : list Alert.t :=
  List.filter (fun a => String.eqb (Alert.userId a) userId) (map snd (alerts s)).

(** An alert that no deal can match: its maximum price is NaN, or its
    minimum of verifications does not convert to a number. *)
Definition unmatchable (a : Alert.t) : Prop :=
  Alert.maxPrice a = JS.NaN \/ JS.ToNumber (Alert.minVerifications a) = JS.NaN.

(** An alert whose maximum price is no numeral. *)
Definition vague_alert_body : Body.alert :=
  {| Body.alert_userId := Some "u3";
     Body.productKeywords := Some "RTX";
     Body.maxPrice := JS.JStr "about 700";
     Body.minVerifications := JS.JNum (JS.Finite 1) |}.

Definition vague_alert : Alert.t :=
  Alert.make "a4" "u3" "rtx" JS.NaN (JS.JNum (JS.Finite 1)) 2800 [].

(** The mode the accepted mode requests of [rs] leave, starting from [m]. *)
Fixpoint mode_after (m : Mode) (rs : list Request) : Mode :=
  match rs with
  | [] => m
  | POST_config_mode v :: rest =>
      mode_after (if JS.is_string v "centralized" then centralized
                  else if JS.is_string v "decentralized" then decentralized
                  else m) rest
  | _ :: rest => mode_after m rest
  end.

(** ** Statistics *)

(** [d.promotedAt] or [d.verifiedAt] read as a condition: a time that is set
    and is not zero. *)
Definition time_set (t : option Z) : bool :=
  match t with
  | Some x => negb (x =? 0)%Z
  | None => false
  end.

(** [ds.reduce((sum, d) => sum + (d.stamp - d.timestamp), 0)] *)
Definition elapsed_sum (stamp : Deal.t -> option Z) (ds : list Deal.t) : Z :=
  fold_left (fun sum d => (sum + (default 0 (stamp d) - Deal.timestamp d))%Z) ds 0%Z.

(** The average, over the deals whose time stamp [stamp] is set, of the time
    from submission to that stamp; 0 when there is none. *)
Definition average_time (stamp : Deal.t -> option Z) (ds : list Deal.t) : Q :=
  let chosen := List.filter (fun d => time_set (stamp d)) ds in
  if length chosen =? 0 then 0%Q
  else (inject_Z (elapsed_sum stamp chosen) / inject_Z (Z.of_nat (length chosen)))%Q.

Definition calculateAveragePromotionTime (ds : list Deal.t) : Q :=
  average_time Deal.promotedAt ds.

Definition calculateAverageVerificationTime (ds : list Deal.t) : Q :=
  average_time Deal.verifiedAt ds.

Definition count_status (st : Status) (ds : list Deal.t) : nat :=
  length (List.filter (fun d => bool_decide (Deal.status d = st)) ds).

Module Stats.
Record t := make {
  totalDeals : nat;
  pendingDeals : nat;
  promotedDeals : nat;
  verifiedDeals : nat;
  rejectedDeals : nat;
  totalUsers : nat;
  totalAlerts : nat;
  totalVerifications : nat;
  averagePromotionTime : Q;
  averageVerificationTime : Q
}.
End Stats.

(** [Array.from(state.deals.values())]: the figures below are counts and a
    sum, which do not depend on the order the deals are read in. *)
Definition deal_values (s : Server) : list Deal.t :=
  map snd (map_to_list (deals s)).

(** GET /api/stats *)
Definition get_stats (s : Server) : Stats.t :=
  let ds := deal_values s in
  Stats.make (length ds)
    (count_status pending ds) (count_status promoted ds)
    (count_status verified ds) (count_status rejected ds)
    (size (users s)) (length (alerts s)) (size (verifications s))
    (calculateAveragePromotionTime ds) (calculateAverageVerificationTime ds).




(** Every verification on a stored deal names that deal and a registered
    verifier, and an entry of the verification store carries its identifier. *)
Definition filed (s : Server) : Prop :=
  forall k d v,
    deals s !! k = Some d -> v ∈ Deal.verifications d ->
    Verification.dealId v = Deal.id d
    /\ is_Some (users s !! Verification.verifierId v)
    /\ is_Some (verifications s !! Verification.id v).

(** * Properties *)

Ltac split_conds :=
  repeat match goal with
    | H : _ && _ = true |- _ => apply andb_prop in H as [? ?]
    | H : _ || _ = false |- _ => apply orb_false_elim in H as [? ?]
    | H : negb _ = false |- _ => apply negb_false_iff in H
    | H : negb _ = true |- _ => apply negb_true_iff in H
    | H : bool_decide _ = true |- _ => apply bool_decide_eq_true in H
    | H : bool_decide _ = false |- _ => apply bool_decide_eq_false in H
    end.

(** Reads a deal back from the store after a write to one key. *)
Ltac read_deal key k :=
  destruct (decide (key = k)) as [-> | ?];
  [rewrite ?lookup_insert_eq in * | rewrite ?lookup_insert_ne in * by done];
  simplify_eq/=.

(** ** The status of a deal moves one way *)

Lemma evolves_refl st : evolves st st.
Proof. by left. Qed.

Lemma evolves_trans a b c : evolves a b -> evolves b c -> evolves a c.
Proof.
  intros [-> | Hab] [-> | Hbc]; try (by left); try (by right).
  inversion Hab; subst; inversion Hbc.
Qed.

Lemma evolves_from_pending st : evolves pending st.
Proof. destruct st; [by left | right; constructor ..]. Qed.

Lemma evolves_terminal a b : evolves a b -> a <> pending -> b = a.
Proof. intros [-> | Ht] Ha; [done | by inversion Ht; subst]. Qed.

Lemma is_pending_true st : is_pending st = true <-> st = pending.
Proof. unfold is_pending. apply bool_decide_eq_true. Qed.

Lemma deal_keeps_refl d : deal_keeps d d.
Proof. repeat split; [apply evolves_refl | exists []; by rewrite app_nil_r]. Qed.

Lemma deal_keeps_trans a b c : deal_keeps a b -> deal_keeps b c -> deal_keeps a c.
Proof.
  intros (Hid & Hst & m1 & Hv) (Hid' & Hst' & m2 & Hv').
  repeat split; [congruence | eauto using evolves_trans |].
  exists (m1 ++ m2). by rewrite Hv', Hv, app_assoc.
Qed.

Lemma checkConsensus_keeps deal now m :
  deal_keeps deal (checkConsensus deal now m).1.1.
Proof.
  unfold checkConsensus, checkAlertsForDeal.
  repeat case_match; simplify_eq/=; split_conds; try apply deal_keeps_refl.
  all: repeat split; simpl; try (exists []; by rewrite app_nil_r).
  all: match goal with H : is_pending _ = true |- _ => apply is_pending_true in H; rewrite H end.
  all: apply evolves_from_pending.
Qed.

Lemma step_deal r s k d :
  fresh_uuid r s -> deals s !! k = Some d ->
  exists d', deals (next r s) !! k = Some d' /\ deal_keeps d d'.
Proof.
  intros Hfresh Hk.
  destruct r; simpl in Hfresh; unfold next, handle.
  - unfold post_users_register. repeat case_match; simpl; eauto using deal_keeps_refl.
  - unfold post_deals. repeat case_match; simpl; eauto using deal_keeps_refl.
    all: read_deal uuid k; eauto using deal_keeps_refl.
  - unfold post_deals_vote. repeat case_match; simpl; eauto using deal_keeps_refl.
    read_deal dealId k; eauto using deal_keeps_refl.
    eexists; split; [done |]. repeat split; simpl; [apply evolves_refl |].
    exists []. by rewrite app_nil_r.
  - unfold post_deals_verify.
    destruct (deals s !! dealId) as [deal |] eqn:Hdeal; simpl; eauto using deal_keeps_refl.
    destruct (Body.userId body) as [userId |]; simpl; eauto using deal_keeps_refl.
    destruct (users s !! userId) as [user |]; simpl; eauto using deal_keeps_refl.
    case_match; simpl; eauto using deal_keeps_refl.
    set (v := Verification.make _ _ _ _ _ _ _).
    set (deal1 := Deal.set_verifications _ _).
    assert (deal_keeps deal deal1) as H1.
    { repeat split; simpl; [apply evolves_refl | by eexists]. }
    case_bool_decide.
    + pose proof (checkConsensus_keeps deal1 now (alerts s)) as H2.
      destruct (checkConsensus deal1 now (alerts s)) as [[deal2 m'] sent]; simpl in *.
      read_deal dealId k; eauto using deal_keeps_refl, deal_keeps_trans.
    + simpl. read_deal dealId k; eauto using deal_keeps_refl.
  - unfold post_alerts. repeat case_match; simpl; eauto using deal_keeps_refl.
  - simpl. eauto using deal_keeps_refl.
  - unfold post_config_mode. repeat case_match; simpl; eauto using deal_keeps_refl.
  - unfold timer_due, checkPromotion, checkAlertsForDeal; simpl.
    repeat case_match; simplify_eq/=; split_conds; eauto using deal_keeps_refl.
    read_deal dealId k; eauto using deal_keeps_refl.
    eexists; split; [done |]. repeat split; simpl.
    + match goal with H : is_pending _ = true |- _ => apply is_pending_true in H; rewrite H end.
      apply evolves_from_pending.
    + exists []. by rewrite app_nil_r.
Qed.

Lemma run_deal rs : forall s k d,
  fresh_run rs s -> deals s !! k = Some d ->
  exists d', deals (run rs s) !! k = Some d' /\ deal_keeps d d'.
Proof.
  induction rs as [| r rs IH]; intros s k d Hfresh Hk; simpl in *.
  - eauto using deal_keeps_refl.
  - destruct Hfresh as [Hr Hrs].
    destruct (step_deal r s k d Hr Hk) as (d1 & Hk1 & Hkeep1).
    destruct (IH _ _ _ Hrs Hk1) as (d2 & Hk2 & Hkeep2).
    eauto using deal_keeps_trans.
Qed.

(** C1. Whatever requests and timers the server serves, a stored deal stays
    stored and its status either is what it was or has made exactly one of the
    moves pending -> promoted, pending -> verified, pending -> rejected: a
    deal that is not pending keeps its status, and no deal becomes pending
    again. *)
Theorem status_one_way (rs : list Request) (s : Server) (k : string) (d : Deal.t) :
  fresh_run rs s ->
  deals s !! k = Some d ->
  exists d', deals (run rs s) !! k = Some d'
    /\ (Deal.status d' = Deal.status d \/ transition (Deal.status d) (Deal.status d'))
    /\ (Deal.status d <> pending -> Deal.status d' = Deal.status d)
    /\ (Deal.status d' = pending -> Deal.status d = pending).
Proof.
  intros Hfresh Hk.
  destruct (run_deal rs s k d Hfresh Hk) as (d' & Hk' & _ & Hst & _).
  exists d'. split; [done |]. split; [exact Hst |]. split.
  - by apply evolves_terminal.
  - intros Hp. destruct Hst as [Heq | Ht]; [congruence |].
    inversion Ht; congruence.
Qed.

Example rtx_deal_stored : deals decentralized_market !! "d1" = Some rtx_deal.
Proof. vm_compute. reflexivity. Qed.

Lemma status_one_way_example :
  exists d', deals (run [verdict_by "u2" "valid" "v1" 3000; verdict_by "u3" "valid" "v2" 3100;
                         verdict_by "u4" "valid" "v3" 3200; vote_by "u2";
                         verdict_by "u1" "invalid" "v4" 3300;
                         POST_config_mode (JS.JStr "centralized"); TimerDue "d1" 12000]
                        decentralized_market) !! "d1" = Some d'
    /\ (Deal.status d' = Deal.status rtx_deal
        \/ transition (Deal.status rtx_deal) (Deal.status d'))
    /\ (Deal.status rtx_deal <> pending -> Deal.status d' = Deal.status rtx_deal)
    /\ (Deal.status d' = pending -> Deal.status rtx_deal = pending).
Proof.
  apply (status_one_way _ decentralized_market "d1" rtx_deal).
  - vm_compute. tauto.
  - vm_compute. reflexivity.
Defined.

(** ** Consensus *)

Lemma checkConsensus_deal deal now m :
  (checkConsensus deal now m).1.1 =
    if (CONSENSUS_THRESHOLD <=? count_verdict "valid" (Deal.verifications deal))
       && is_pending (Deal.status deal)
    then Deal.set_verifiedAt (Some now) (Deal.set_status verified deal)
    else if (CONSENSUS_THRESHOLD <=? count_verdict "invalid" (Deal.verifications deal))
            && is_pending (Deal.status deal)
         then Deal.set_status rejected deal
         else deal.
Proof.
  unfold checkConsensus.
  destruct (checkAlertsForDeal _ now m) as [m' sent].
  by repeat case_match.
Qed.

(** A successful verification request stores the deal that comes out of the
    consensus check (decentralized mode) or the deal with the verification
    appended (centralized mode), and answers with that same deal. *)
Lemma verify_stores s dealId body uuid now deal v deal' :
  deals s !! dealId = Some deal ->
  response (POST_deals_verify dealId body uuid now) s = Ok (DealVerified v deal') ->
  let deal1 := Deal.set_verifications (Deal.verifications deal ++ [v]) deal in
  deals (next (POST_deals_verify dealId body uuid now) s) !! dealId = Some deal'
  /\ deal' = (if bool_decide (Config.mode (config s) = decentralized)
              then (checkConsensus deal1 now (alerts s)).1.1 else deal1).
Proof.
  unfold response, next, handle, post_deals_verify. intros ->.
  destruct (Body.userId body) as [userId |]; simpl; [| done].
  destruct (users s !! userId) as [user |]; simpl; [| done].
  case_match; [done |].
  case_bool_decide.
  - destruct (checkConsensus _ now (alerts s)) as [[deal2 m'] sent] eqn:Hc; simpl.
    intros [= <- <-]. rewrite lookup_insert_eq. by rewrite Hc.
  - simpl. intros [= <- <-]. by rewrite lookup_insert_eq.
Qed.

(** C2. In decentralized mode, when a verification is recorded for a deal,
    the deal stored afterwards carries the new verification and: it has moved
    from pending to verified, with its verification time stamped, exactly when
    it was pending and now counts at least 3 'valid' verdicts; it has moved
    from pending to rejected exactly when it was pending, counts fewer than 3
    'valid' verdicts and at least 3 'invalid' ones; in every other case its
    status is unchanged. With both counts at 3 or more the deal is verified:
    the valid count is tested first. *)
Theorem consensus_after_verification
    (s : Server) (dealId : string) (body : Body.verify) (uuid : string) (now : Z)
    (deal : Deal.t) (v : Verification.t) (deal' : Deal.t) :
  Config.mode (config s) = decentralized ->
  deals s !! dealId = Some deal ->
  response (POST_deals_verify dealId body uuid now) s = Ok (DealVerified v deal') ->
  let valid := count_verdict "valid" (Deal.verifications deal') in
  let invalid := count_verdict "invalid" (Deal.verifications deal') in
  deals (next (POST_deals_verify dealId body uuid now) s) !! dealId = Some deal'
  /\ Deal.verifications deal' = Deal.verifications deal ++ [v]
  /\ (Deal.status deal = pending /\ Deal.status deal' = verified
        <-> Deal.status deal = pending /\ 3 <= valid)
  /\ (Deal.status deal = pending /\ 3 <= valid -> Deal.verifiedAt deal' = Some now)
  /\ (Deal.status deal = pending /\ Deal.status deal' = rejected
        <-> Deal.status deal = pending /\ valid < 3 /\ 3 <= invalid)
  /\ (Deal.status deal' = Deal.status deal
        <-> ~ (Deal.status deal = pending /\ (3 <= valid \/ 3 <= invalid)))
  /\ (Deal.status deal = pending -> 3 <= valid -> 3 <= invalid ->
        Deal.status deal' = verified).
Proof.
  intros Hmode Hdeal Hresp.
  destruct (verify_stores _ _ _ _ _ _ _ _ Hdeal Hresp) as [Hstored Hout].
  rewrite bool_decide_eq_true_2 in Hout by done.
  rewrite checkConsensus_deal in Hout. cbv zeta in Hout.
  set (deal1 := Deal.set_verifications _ deal) in Hout.
  assert (Deal.verifications deal' = Deal.verifications deal ++ [v]) as Hvs.
  { subst deal'. by repeat case_match. }
  split; [exact Hstored |]. split; [exact Hvs |].
  cbv zeta. rewrite Hvs.
  change (Deal.verifications deal ++ [v]) with (Deal.verifications deal1) in Hout |- *.
  unfold CONSENSUS_THRESHOLD in Hout.
  change (Deal.status deal1) with (Deal.status deal) in Hout.
  generalize dependent (count_verdict "valid" (Deal.verifications deal1)).
  generalize dependent (count_verdict "invalid" (Deal.verifications deal1)).
  intros ni nv Hout.
  destruct (Nat.leb_spec 3 nv) as [Hv | Hv];
    destruct (Nat.leb_spec 3 ni) as [Hi | Hi];
    destruct (Deal.status deal) eqn:Hst; simpl in Hout; subst deal'; simpl;
    rewrite ?Hst; intuition (congruence || lia).
Qed.

Lemma consensus_after_verification_example :
  deals (next third_valid two_valid) !! "d1" = Some rtx_verified
  /\ Deal.status rtx_verified = verified
  /\ Deal.verifiedAt rtx_verified = Some 3200%Z.
Proof.
  assert (Config.mode (config two_valid) = decentralized) as Hmode
    by (vm_compute; reflexivity).
  assert (deals two_valid !! "d1" = Some rtx_two_valid) as Hdeal
    by (vm_compute; reflexivity).
  assert (response third_valid two_valid
          = Ok (DealVerified third_verification rtx_verified)) as Hresp
    by (vm_compute; reflexivity).
  destruct (consensus_after_verification two_valid "d1" _ "v3" 3200 rtx_two_valid
              third_verification rtx_verified Hmode Hdeal Hresp)
    as (Hstored & _ & Hverified & Hstamp & _).
  assert (Deal.status rtx_two_valid = pending
          /\ 3 <= count_verdict "valid" (Deal.verifications rtx_verified)) as Hcount
    by (vm_compute; split; [reflexivity | lia]).
  split; [exact Hstored |]. split.
  - apply Hverified, Hcount.
  - apply Hstamp, Hcount.
Defined.

(** ** The promotion check *)




Lemma filter_remove_first_eq k l :
  includes_id l k = true ->
  S (length (List.filter (String.eqb k) (remove_first k l)))
  = length (List.filter (String.eqb k) l).
Proof.
  unfold includes_id. induction l as [| x l IH]; simpl; [done |].
  rewrite (String.eqb_sym x k).
  destruct (String.eqb k x) eqn:Hx; simpl; [done |].
  rewrite Hx. exact IH.
Qed.


(** Only stored deals have a check in the queue: true at start-up and kept by
    every step. *)
Lemma timers_stored_initial : timers_stored initial.
Proof. constructor. Qed.


Lemma Forall_remove_first (P : string -> Prop) k l :
  Forall P l -> Forall P (remove_first k l).
Proof.
  induction 1 as [| x l Hx Hall IH]; simpl; [constructor |].
  destruct (String.eqb x k); [done | by constructor].
Qed.

Lemma timers_stored_step r s :
  timers_stored s -> timers_stored (next r s).
Proof.
  unfold timers_stored. intros Hall.
  assert (forall key (d : Deal.t),
            Forall (fun k => is_Some (<[key := d]> (deals s) !! k)) (timers s)) as Hins.
  { intros key d. eapply Forall_impl; [exact Hall |]. intros k Hk. simpl in *.
    destruct (decide (key = k)) as [-> | ?];
      [rewrite lookup_insert_eq; eauto | by rewrite lookup_insert_ne]. }
  destruct r; unfold next, handle.
  - unfold post_users_register. by repeat case_match.
  - unfold post_deals. repeat case_match; simpl; try done; try apply Hins.
    all: apply Forall_app; split; [apply Hins |].
    all: constructor; [| constructor]; rewrite lookup_insert_eq; eauto.
  - unfold post_deals_vote. repeat case_match; simpl; try done; try apply Hins.
  - unfold post_deals_verify. repeat case_match; simpl; try done; try apply Hins.
  - unfold post_alerts. by repeat case_match.
  - done.
  - unfold post_config_mode. by repeat case_match.
  - unfold timer_due, checkPromotion, checkAlertsForDeal; simpl.
    repeat case_match; simplify_eq/=; try done.
    all: try (apply Forall_remove_first; first [apply Hins | exact Hall]).
Qed.

Lemma timers_stored_run rs : forall s, timers_stored s -> timers_stored (run rs s).
Proof. induction rs; simpl; eauto using timers_stored_step. Qed.





(** What a successful submission stores. *)
Lemma submit_stores s body k now deal :
  response (POST_deals body k now) s = Ok (DealCreated deal) ->
  deals (next (POST_deals body k now) s) !! k = Some deal
  /\ Deal.status deal = pending /\ Deal.votes deal = 0 /\ Deal.verifications deal = []
  /\ Deal.price deal = JS.parseFloat (Body.price body)
  /\ Config.mode (config (next (POST_deals body k now) s)) = Config.mode (config s)
  /\ timers (next (POST_deals body k now) s)
     = (if bool_decide (Config.mode (config s) = centralized)
        then timers s ++ [k] else timers s).
Proof.
  unfold response, next, handle, post_deals.
  destruct (_ || _); [done |].
  destruct (lookup_field _ _) as [user |]; [| done].
  simpl. intros [= <-]. simpl.
  case_bool_decide; simpl; by rewrite lookup_insert_eq.
Qed.

(** What the promotion check does to the deal it is held for. *)
Lemma check_fires s k now d :
  deals s !! k = Some d ->
  includes_id (timers s) k = true ->
  deals (next (TimerDue k now) s) !! k
  = Some (if is_pending (Deal.status d)
             && (Config.promotionThreshold (config s) <=? Deal.votes d)
          then Deal.set_promotedAt (Some now) (Deal.set_status promoted d)
          else d)
  /\ Config.mode (config (next (TimerDue k now) s)) = Config.mode (config s)
  /\ S (pending_checks k (next (TimerDue k now) s)) = pending_checks k s.
Proof.
  intros Hk Hin. unfold next, handle, timer_due, pending_checks. rewrite Hin.
  unfold checkPromotion, checkAlertsForDeal; simpl. rewrite Hk.
  destruct (is_pending (Deal.status d)); simpl;
    [| by rewrite filter_remove_first_eq].
  destruct (_ <=? _); simpl; [| by rewrite filter_remove_first_eq].
  destruct (forEach_alert _ now (alerts s)) as [m' sent]; simpl.
  rewrite lookup_insert_eq. by rewrite filter_remove_first_eq.
Qed.



(** ** Which rule applies *)

(** The promotion check does not look at the mode: a deal submitted under
    centralized mode is promoted by its check although the mode has been
    switched to decentralized in the meantime. *)
Lemma promotion_under_decentralized_mode :
  Config.mode (config switched_market) = decentralized
  /\ Deal.status <$> deals switched_market !! "d1" = Some pending
  /\ Deal.status <$> deals (next (TimerDue "d1" 12000) switched_market) !! "d1"
     = Some promoted
  /\ ~ rule_follows_current_mode.
Proof.
  assert (Config.mode (config switched_market) = decentralized) as Hmode
    by (vm_compute; reflexivity).
  split; [exact Hmode |].
  split; [vm_compute; reflexivity |].
  split; [vm_compute; reflexivity |].
  intros Hrule.
  destruct (deals switched_market !! "d1") as [d |] eqn:Hd; [| vm_compute in Hd; done].
  destruct (deals (next (TimerDue "d1" 12000) switched_market) !! "d1") as [d' |] eqn:Hd';
    [| vm_compute in Hd'; done].
  destruct (Hrule switched_market (TimerDue "d1" 12000) "d1" d d' Hd Hd') as [Hp _].
  - vm_compute in Hd. by injection Hd as <-.
  - rewrite Hmode in Hp. discriminate Hp.
    vm_compute in Hd'. by injection Hd' as <-.
Qed.

Lemma mode_switch_frame s mode :
  deals (next (POST_config_mode mode) s) = deals s
  /\ users (next (POST_config_mode mode) s) = users s
  /\ verifications (next (POST_config_mode mode) s) = verifications s
  /\ alerts (next (POST_config_mode mode) s) = alerts s
  /\ timers (next (POST_config_mode mode) s) = timers s
  /\ (effects (POST_config_mode mode) s = []
      \/ effects (POST_config_mode mode) s
         = [Broadcast (CONFIG_UPDATED (config (next (POST_config_mode mode) s)))]).
Proof.
  unfold next, effects, handle, post_config_mode.
  case_match; simpl; repeat split; eauto.
Qed.

(** C4, as the code has it. The consensus rule is applied to a deal when a
    verification is recorded under decentralized mode, whatever the mode was
    when the deal was submitted, and is not applied under centralized mode.
    The promotion check is put in the timer queue exactly when the mode is
    centralized at submission; when it comes due it applies the promotion rule
    without looking at the mode. A mode switch touches no deal, alert or
    timer: it changes the mode and announces the configuration. *)
Theorem rule_selection :
  (forall s dealId body uuid now deal v deal',
      deals s !! dealId = Some deal ->
      response (POST_deals_verify dealId body uuid now) s = Ok (DealVerified v deal') ->
      deals (next (POST_deals_verify dealId body uuid now) s) !! dealId = Some deal'
      /\ deal' = (if bool_decide (Config.mode (config s) = decentralized)
                  then (checkConsensus
                          (Deal.set_verifications (Deal.verifications deal ++ [v]) deal)
                          now (alerts s)).1.1
                  else Deal.set_verifications (Deal.verifications deal ++ [v]) deal))
  /\ (forall s body k now deal,
      response (POST_deals body k now) s = Ok (DealCreated deal) ->
      timers (next (POST_deals body k now) s)
      = (if bool_decide (Config.mode (config s) = centralized)
         then timers s ++ [k] else timers s))
  /\ (forall s k now d,
      deals s !! k = Some d ->
      includes_id (timers s) k = true ->
      deals (next (TimerDue k now) s) !! k
      = Some (if is_pending (Deal.status d)
                 && (Config.promotionThreshold (config s) <=? Deal.votes d)
              then Deal.set_promotedAt (Some now) (Deal.set_status promoted d)
              else d))
  /\ (forall s mode,
      deals (next (POST_config_mode mode) s) = deals s
      /\ alerts (next (POST_config_mode mode) s) = alerts s
      /\ timers (next (POST_config_mode mode) s) = timers s
      /\ (effects (POST_config_mode mode) s = []
          \/ effects (POST_config_mode mode) s
             = [Broadcast (CONFIG_UPDATED (config (next (POST_config_mode mode) s)))])).
Proof.
  split; [| split; [| split]].
  - intros. by apply verify_stores.
  - intros s body k now deal Hresp. by apply (submit_stores _ _ _ _ _ Hresp).
  - intros s k now d Hk Hin. by apply (check_fires s k now d Hk Hin).
  - intros s mode. destruct (mode_switch_frame s mode) as (? & _ & _ & ? & ? & ?). eauto.
Qed.

Lemma rule_selection_example :
  Deal.status <$> deals (next (TimerDue "d1" 12000) switched_market) !! "d1" = Some promoted
  /\ timers (next submit_rtx (run [POST_config_mode (JS.JStr "decentralized")] registered)) = [].
Proof.
  destruct rule_selection as (_ & Hschedule & Hfire & _).
  split.
  - assert (deals switched_market !! "d1"
            = Some (Deal.set_votes 5 rtx_deal)) as Hd by (vm_compute; reflexivity).
    rewrite (Hfire switched_market "d1" 12000%Z _ Hd); [reflexivity |].
    vm_compute. reflexivity.
  - rewrite (Hschedule _ rtx_draft "d1" 2000%Z rtx_deal); vm_compute; reflexivity.
Defined.

(** ** Alert matching *)

Lemma lower_ascii_idem c : JS.lower_ascii (JS.lower_ascii c) = JS.lower_ascii c.
Proof. destruct c as [[] [] [] [] [] [] [] []]; reflexivity. Qed.

Lemma toLowerCase_idem s : JS.toLowerCase (JS.toLowerCase s) = JS.toLowerCase s.
Proof. induction s as [| c s IH]; simpl; [done |]. by rewrite lower_ascii_idem, IH. Qed.


Lemma check_alert_fields deal now a :
  Alert.id (check_alert deal now a).1 = Alert.id a
  /\ Alert.productKeywords (check_alert deal now a).1 = Alert.productKeywords a
  /\ Alert.maxPrice (check_alert deal now a).1 = Alert.maxPrice a
  /\ Alert.minVerifications (check_alert deal now a).1 = Alert.minVerifications a.
Proof. unfold check_alert. by repeat case_match. Qed.

(** One alert, one deal: a notification goes out exactly when the test passes
    and the deal is not in the triggered list yet. *)
Lemma fired_check_alert deal now a k d :
  fired k d (check_alert deal now a).2 =
    if String.eqb (Alert.id a) k && String.eqb (Deal.id deal) d
       && (keywordsMatch deal a && priceMatch deal a && verificationMatch deal a)
       && negb (includes_id (Alert.triggered a) (Deal.id deal))
    then 1 else 0.
Proof.
  unfold check_alert, fired.
  destruct (keywordsMatch deal a && priceMatch deal a && verificationMatch deal a); simpl;
    [| by rewrite andb_false_r].
  destruct (includes_id (Alert.triggered a) (Deal.id deal)); simpl;
    [by rewrite andb_false_r |].
  rewrite !andb_true_r. by destruct (_ && _).
Qed.

Lemma fired_app k d es es' : fired k d (es ++ es') = fired k d es + fired k d es'.
Proof. unfold fired. by rewrite List.filter_app, length_app. Qed.

Lemma forEach_alert_keys deal now m :
  map fst (forEach_alert deal now m).1 = map fst m.
Proof.
  induction m as [| [k a] m IH]; simpl; [done |].
  destruct (check_alert deal now a) as [a' sent].
  destruct (forEach_alert deal now m) as [m' sent']. simpl in *. by rewrite IH.
Qed.

Lemma forEach_alert_get deal now m k :
  omap_get k (forEach_alert deal now m).1
  = (fun a => (check_alert deal now a).1) <$> omap_get k m.
Proof.
  induction m as [| [k' a] m IH]; simpl; [done |].
  destruct (check_alert deal now a) as [a' sent] eqn:Ha.
  destruct (forEach_alert deal now m) as [m' sent']. simpl in *.
  destruct (String.eqb k' k); [simpl; by rewrite Ha | exact IH].
Qed.

Lemma omap_get_None {A} k (m : list (string * A)) :
  k ∉ map fst m -> omap_get k m = None.
Proof.
  induction m as [| [k' a] m IH]; simpl; [done |].
  intros Hnot. destruct (String.eqb_spec k' k) as [-> | Hne].
  - destruct Hnot. by left.
  - apply IH. intros Hin. apply Hnot. by right.
Qed.

(** A scan of a well-formed store sends, for alert [k], what [check_alert]
    sends for the alert stored under [k]. *)
Lemma fired_forEach deal now m k d :
  alerts_wf m ->
  fired k d (forEach_alert deal now m).2
  = match omap_get k m with
    | Some a => fired k d (check_alert deal now a).2
    | None => 0
    end.
Proof.
  intros [Hnodup Hwf].
  induction m as [| [k' a] m IH]; simpl; [done |].
  apply NoDup_cons in Hnodup as [Hnot Hnodup].
  apply Forall_cons in Hwf as [[Hid _] Hwf]. simpl in *.
  specialize (IH Hnodup Hwf).
  destruct (check_alert deal now a) as [a' sent] eqn:Ha.
  destruct (forEach_alert deal now m) as [m' sent']. simpl in *.
  rewrite fired_app, IH.
  destruct (String.eqb_spec k' k) as [-> | Hne].
  - rewrite (omap_get_None k m Hnot). rewrite Ha. simpl. lia.
  - replace (fired k d sent) with 0; [done |].
    pose proof (fired_check_alert deal now a k d) as Hf. rewrite Ha in Hf. simpl in Hf.
    rewrite Hf, Hid. destruct (String.eqb_spec k' k); [done | by simpl].
Qed.

(** ** What a step does to the alerts *)

Lemma checkConsensus_cases deal now m :
  (Deal.status deal = pending
   /\ let deal' := Deal.set_verifiedAt (Some now) (Deal.set_status verified deal) in
      checkConsensus deal now m
      = (deal', (forEach_alert deal' now m).1,
         Broadcast (DEAL_VERIFIED deal') :: AlertScan deal' :: (forEach_alert deal' now m).2))
  \/ (Deal.status deal = pending
      /\ checkConsensus deal now m
         = (Deal.set_status rejected deal, m,
            [Broadcast (DEAL_REJECTED (Deal.set_status rejected deal))]))
  \/ checkConsensus deal now m = (deal, m, []).
Proof.
  unfold checkConsensus, checkAlertsForDeal. cbv zeta.
  destruct ((_ <=? count_verdict "valid" _) && _) eqn:Hv.
  - left. apply andb_prop in Hv as [_ Hp]. apply is_pending_true in Hp.
    split; [done |]. simpl. by destruct (forEach_alert _ now m).
  - destruct ((_ <=? count_verdict "invalid" _) && _) eqn:Hi; [| right; by right].
    right; left. apply andb_prop in Hi as [_ Hp]. apply is_pending_true in Hp. by split.
Qed.

Lemma alert_scans_app es es' :
  alert_scans (es ++ es') = alert_scans es ++ alert_scans es'.
Proof.
  induction es as [| [m | d] es IH]; simpl; [done | exact IH | by rewrite IH].
Qed.

Lemma forEach_alert_no_scan deal now m : alert_scans (forEach_alert deal now m).2 = [].
Proof.
  induction m as [| [k a] m IH]; simpl; [done |].
  destruct (check_alert deal now a) as [a' sent] eqn:Ha.
  destruct (forEach_alert deal now m) as [m' sent']. simpl in *.
  rewrite alert_scans_app, IH, app_nil_r.
  unfold check_alert in Ha. by repeat case_match; simplify_eq.
Qed.

Lemma quiet_same r s resp :
  handle r s = (resp, s, []) -> quiet_step r s.
Proof.
  intros Hs. unfold quiet_step, next, effects. rewrite Hs. simpl.
  repeat split; [by left | intros; left; congruence].
Qed.

Lemma step_cases r s : quiet_step r s \/ scan_step r s.
Proof.
  destruct r.
  - left. unfold quiet_step, effects, next, handle, post_users_register.
    repeat case_match; simpl; repeat split; try (by left); intros; left; congruence.
  - left. pose proof (quiet_same (POST_deals body uuid now) s) as Hsame.
    unfold quiet_step, effects, next, handle, post_deals in *.
    destruct (_ || _); [by eapply Hsame |].
    destruct (lookup_field _ _); [| by eapply Hsame].
    clear Hsame. case_bool_decide; simpl; (repeat split; [by left |]).
    all: intros key d0 d1 Hfresh Hk0; simpl in Hfresh.
    all: assert (uuid <> key) by congruence.
    all: rewrite lookup_insert_ne by done; left; congruence.
  - left. pose proof (quiet_same (POST_deals_vote dealId userId) s) as Hsame.
    unfold quiet_step, effects, next, handle, post_deals_vote in *.
    destruct (deals s !! dealId) as [deal |] eqn:Hd; [| by eapply Hsame].
    destruct (lookup_field _ _); [| by eapply Hsame].
    clear Hsame. simpl. repeat split; [by left |].
    intros key d0 d1 _ Hk0. read_deal dealId key; intros; simplify_eq/=; by left.
  - pose proof (quiet_same (POST_deals_verify dealId body uuid now) s) as Hsame.
    unfold quiet_step, scan_step, effects, next, handle, post_deals_verify in *.
    destruct (deals s !! dealId) as [deal |] eqn:Hd; [| left; by eapply Hsame].
    destruct (Body.userId body) as [userId |]; [| left; by eapply Hsame].
    simpl in *.
    destruct (users s !! userId) as [user |]; [| left; by eapply Hsame].
    destruct (existsb _ _); [left; by eapply Hsame |].
    clear Hsame.
    set (v := Verification.make _ _ _ _ _ _ _).
    set (deal1 := Deal.set_verifications _ _).
    case_bool_decide.
    + destruct (checkConsensus_cases deal1 now (alerts s)) as [[Hp Hc] | [[Hp Hc] | Hc]];
        simpl in Hc; rewrite Hc; simpl.
      * right. exists dealId, deal, (Deal.set_verifiedAt (Some now) (Deal.set_status verified deal1)), now.
        rewrite lookup_insert_eq. repeat split; try done; [by right | | |].
        -- intros key' Hne. by rewrite lookup_insert_ne.
        -- by rewrite alert_scans_app, forEach_alert_no_scan.
        -- intros k d. unfold fired. simpl. rewrite List.filter_app. simpl.
           by rewrite app_nil_r.
      * left. repeat split; [by left |].
        intros key d0 d1 _ Hk0. read_deal dealId key; intros; simplify_eq/=; [by right | by left].
      * left. repeat split; [by left |].
        intros key d0 d1 _ Hk0. read_deal dealId key; intros; simplify_eq/=; by left.
    + left. simpl. repeat split; [by left |].
      intros key d0 d1 _ Hk0. read_deal dealId key; intros; simplify_eq/=; by left.
  - left. pose proof (quiet_same (POST_alerts body uuid now) s) as Hsame.
    unfold quiet_step, effects, next, handle, post_alerts in *.
    destruct (_ || _); [by eapply Hsame |].
    destruct (lookup_field _ _); [| by eapply Hsame].
    clear Hsame. simpl. repeat split; [| intros; left; congruence].
    right; left. eexists body, uuid, now, _.
    split; [done |]. split; [| split; [| reflexivity]]; [| done].
    split; simpl; [done | apply toLowerCase_idem].
  - left. unfold quiet_step, effects, next, handle, delete_alerts. simpl.
    repeat split; [| intros; left; congruence].
    right; right. by exists alertId.
  - left. unfold quiet_step, effects, next, handle, post_config_mode.
    case_match; simpl; repeat split; try (by left); intros; left; congruence.
  - pose proof (quiet_same (TimerDue dealId now) s) as Hsame.
    unfold quiet_step, scan_step, effects, next, handle, timer_due in *.
    destruct (includes_id _ _); [| left; by eapply Hsame].
    clear Hsame.
    unfold checkPromotion, checkAlertsForDeal; simpl.
    destruct (deals s !! dealId) as [deal |] eqn:Hd; simpl;
      [| left; repeat split; [by left | intros; left; congruence]].
    destruct (is_pending (Deal.status deal)) eqn:Hp; simpl;
      [| left; repeat split; [by left | intros; left; congruence]].
    destruct (_ <=? _); simpl;
      [| left; repeat split; [by left | intros; left; congruence]].
    right. apply is_pending_true in Hp.
    exists dealId, deal, (Deal.set_promotedAt (Some now) (Deal.set_status promoted deal)), now.
    pose proof (forEach_alert_no_scan
                  (Deal.set_promotedAt (Some now) (Deal.set_status promoted deal))
                  now (alerts s)) as Hnone.
    destruct (forEach_alert _ now (alerts s)) as [m' sent] eqn:Hscan; simpl in *.
    rewrite lookup_insert_eq. repeat split; try done; [by left | | by rewrite Hnone].
    intros key' Hne. by rewrite lookup_insert_ne.
Qed.

(** ** The alert store stays well formed *)

Lemma omap_set_keys {A} k (a : A) m :
  map fst (omap_set k a m) = map fst m
  \/ ((k ∉ map fst m) /\ map fst (omap_set k a m) = map fst m ++ [k]).
Proof.
  induction m as [| [k' a'] m IH]; simpl.
  - right. split; [apply not_elem_of_nil | done].
  - destruct (String.eqb_spec k' k) as [-> | Hne]; simpl; [by left |].
    destruct IH as [-> | [Hnot ->]]; [by left | right].
    split; [| done]. intros [-> | Hin]%elem_of_cons; [done | by apply Hnot].
Qed.

Lemma omap_set_Forall {A} (P : string * A -> Prop) k a m :
  P (k, a) -> Forall P m -> Forall P (omap_set k a m).
Proof.
  intros Hka. induction 1 as [| [k' a'] m Hx Hall IH]; simpl.
  - by repeat constructor.
  - destruct (String.eqb k' k); by constructor.
Qed.

Lemma omap_get_set_ne {A} k k' (a : A) m :
  k' <> k -> omap_get k (omap_set k' a m) = omap_get k m.
Proof.
  intros Hne. induction m as [| [k0 a0] m IH]; simpl.
  - destruct (String.eqb_spec k' k); [done | done].
  - destruct (String.eqb_spec k0 k') as [-> | Hne0]; simpl.
    + destruct (String.eqb_spec k' k); [done | done].
    + destruct (String.eqb k0 k); [done | exact IH].
Qed.

Lemma omap_get_delete {A} k k' (m : list (string * A)) :
  omap_get k (omap_delete k' m) = if String.eqb k' k then None else omap_get k m.
Proof.
  unfold omap_delete. induction m as [| [k0 a0] m IH]; simpl.
  - by destruct (String.eqb k' k).
  - destruct (String.eqb_spec k0 k') as [-> | Hne0]; simpl.
    + rewrite IH. destruct (String.eqb k' k); done.
    + rewrite IH. destruct (String.eqb_spec k0 k) as [-> | Hne]; [| done].
      destruct (String.eqb_spec k' k); [congruence | done].
Qed.

Lemma omap_delete_wf k m : alerts_wf m -> alerts_wf (omap_delete k m).
Proof.
  unfold alerts_wf, omap_delete. intros [Hnodup Hwf]. split.
  - induction m as [| [k' a] m IH]; simpl; [constructor |].
    apply NoDup_cons in Hnodup as [Hnot Hnodup].
    apply Forall_cons in Hwf as [_ Hwf].
    destruct (negb _); simpl; [| by apply IH].
    apply NoDup_cons. split; [| by apply IH].
    intros Hin. apply Hnot.
    apply list_elem_of_fmap in Hin as (kv & -> & Hkv).
    apply list_elem_of_In, List.filter_In in Hkv as [Hkv _].
    apply list_elem_of_fmap. exists kv. split; [done | by apply list_elem_of_In].
  - apply Forall_forall. intros kv Hkv.
    apply list_elem_of_In, List.filter_In in Hkv as [Hkv _].
    rewrite Forall_forall in Hwf. by apply Hwf, list_elem_of_In.
Qed.

Lemma forEach_alert_wf deal now m : alerts_wf m -> alerts_wf (forEach_alert deal now m).1.
Proof.
  unfold alerts_wf. intros [Hnodup Hwf]. split; [by rewrite forEach_alert_keys |].
  clear Hnodup. induction Hwf as [| [k a] m [Hid Hlow] Hwf IH]; simpl; [constructor |].
  destruct (check_alert_fields deal now a) as (Hid' & Hkw' & _).
  destruct (check_alert deal now a) as [a' sent].
  destruct (forEach_alert deal now m) as [m' sent']. simpl in *.
  constructor; [| exact IH]. split; simpl; congruence.
Qed.

Lemma alerts_wf_step r s : alerts_wf (alerts s) -> alerts_wf (alerts (next r s)).
Proof.
  intros Hwf.
  destruct (step_cases r s) as [(_ & _ & Hedit & _) | (key & d0 & d1 & now & Hscan)].
  - destruct Hedit as [-> | [(body & uuid & now & a & _ & Ha & _ & ->) | (k & _ & ->)]].
    + exact Hwf.
    + destruct Hwf as [Hnodup Hall]. split; [| by apply omap_set_Forall].
      destruct (omap_set_keys uuid a (alerts s)) as [-> | [Hnot ->]]; [done |].
      apply NoDup_app. repeat split; [done | | apply NoDup_singleton].
      intros x Hx ->%list_elem_of_singleton. by apply Hnot.
    + by apply omap_delete_wf.
  - destruct Hscan as (_ & _ & _ & _ & _ & -> & _). by apply forEach_alert_wf.
Qed.

Lemma alerts_wf_run rs : forall s, alerts_wf (alerts s) -> alerts_wf (alerts (run rs s)).
Proof. induction rs; simpl; eauto using alerts_wf_step. Qed.

Lemma alerts_wf_initial : alerts_wf (alerts initial).
Proof. split; constructor. Qed.




(** ** An alert fires once per deal *)

Lemma includes_id_snoc l x d :
  includes_id (l ++ [x]) d = includes_id l d || String.eqb d x.
Proof. unfold includes_id. rewrite existsb_app. simpl. by rewrite orb_false_r. Qed.

(** One alert, one deal: what is notified is paid from the budget. *)
Lemma check_alert_budget deal now a k d :
  fired k d (check_alert deal now a).2
  + (if includes_id (Alert.triggered (check_alert deal now a).1) d then 0 else 1)
  <= (if includes_id (Alert.triggered a) d then 0 else 1).
Proof.
  rewrite fired_check_alert. unfold check_alert.
  destruct (keywordsMatch deal a && priceMatch deal a && verificationMatch deal a); simpl;
    [| rewrite andb_false_r; simpl; lia].
  destruct (includes_id (Alert.triggered a) (Deal.id deal)) eqn:Hin; simpl;
    [rewrite andb_false_r; simpl; lia |].
  rewrite !andb_true_r, includes_id_snoc.
  destruct (String.eqb_spec (Deal.id deal) d) as [<- | Hne].
  - rewrite Hin, String.eqb_refl, orb_true_r, andb_true_r.
    destruct (String.eqb _ _); simpl; lia.
  - rewrite andb_false_r. simpl.
    destruct (includes_id (Alert.triggered a) d); simpl; [lia |].
    destruct (String.eqb d (Deal.id deal)); simpl; lia.
Qed.

Lemma budget_step r s k d :
  alerts_wf (alerts s) -> not_recreating k r ->
  fired k d (effects r s) + budget k d (next r s) <= budget k d s.
Proof.
  intros Hwf Hnew. unfold budget.
  destruct (step_cases r s) as [(_ & Hnone & Hedit & _) | (key & d0 & d1 & now & Hscan)].
  - rewrite Hnone. simpl.
    destruct Hedit as [-> | [(body & uuid & now & a & -> & _ & _ & ->) | (id & _ & ->)]].
    + done.
    + simpl in Hnew. by rewrite omap_get_set_ne.
    + rewrite omap_get_delete. destruct (String.eqb id k); [lia | done].
  - destruct Hscan as (_ & _ & _ & _ & _ & -> & _ & ->).
    rewrite fired_forEach, forEach_alert_get by done.
    destruct (omap_get k (alerts s)) as [a |]; simpl; [| done].
    apply check_alert_budget.
Qed.

Lemma budget_run rs : forall s k d,
  alerts_wf (alerts s) -> Forall (not_recreating k) rs ->
  fired k d (trace rs s) + budget k d (run rs s) <= budget k d s.
Proof.
  induction rs as [| r rs IH]; intros s k d Hwf Hnew; simpl; [done |].
  inversion Hnew as [| ? ? Hr Hrs]; subst.
  rewrite fired_app.
  pose proof (budget_step r s k d Hwf Hr).
  pose proof (IH (next r s) k d (alerts_wf_step r s Hwf) Hrs). lia.
Qed.

(** C6. However long the server runs, an alert is notified at most once for
    a given deal as long as its identifier is not handed out again: the
    notifications sent for the pair, plus one if the alert is still stored
    and has not the deal in its triggered list, never exceed what was left at
    the start; once the deal is in the triggered list of the alert, nothing
    is sent for the pair any more, whatever verifications, votes or scans
    follow. *)
Theorem alert_fires_once (rs : list Request) (s : Server) (k d : string) :
  alerts_wf (alerts s) ->
  Forall (not_recreating k) rs ->
  fired k d (trace rs s) + budget k d (run rs s) <= budget k d s
  /\ fired k d (trace rs s) <= 1
  /\ (forall a, omap_get k (alerts s) = Some a ->
        includes_id (Alert.triggered a) d = true -> fired k d (trace rs s) = 0)
  /\ (forall a, fired k d (trace rs s) = 1 ->
        omap_get k (alerts (run rs s)) = Some a ->
        includes_id (Alert.triggered a) d = true).
Proof.
  intros Hwf Hnew.
  pose proof (budget_run rs s k d Hwf Hnew) as Hle.
  assert (budget k d s <= 1) as Hone.
  { unfold budget. repeat case_match; lia. }
  split; [exact Hle |]. split; [lia |]. split.
  - intros a Hk Hin. unfold budget in Hle at 2. rewrite Hk, Hin in Hle. lia.
  - intros a Hfired Hk. unfold budget in Hle at 1. rewrite Hk in Hle.
    destruct (includes_id _ _); [done | lia].
Qed.

Lemma decentralized_market_wf : alerts_wf (alerts decentralized_market).
Proof.
  unfold decentralized_market, registered.
  repeat apply alerts_wf_run. apply alerts_wf_initial.
Qed.

Lemma alert_fires_once_example :
  fired "a1" "d1" (trace four_valid decentralized_market) = 1
  /\ fired "a1" "d1" (trace four_valid decentralized_market) <= 1.
Proof.
  split; [vm_compute; reflexivity |].
  apply (alert_fires_once four_valid decentralized_market "a1" "d1").
  - apply decentralized_market_wf.
  - repeat constructor.
Defined.

(** ** When the alerts are scanned *)

(** C7. A step enters the alert scan at most once, and it does so exactly
    when it has just moved a pending deal to promoted or to verified, for
    that deal. A step without scan makes no such move: each stored deal keeps
    its status or goes from pending to rejected. In particular a vote never
    leads to a scan, and a verification leads to one only when it completes
    the consensus on 'valid'. *)
Theorem scan_on_success_only (r : Request) (s : Server) :
  fresh_uuid r s ->
  match alert_scans (effects r s) with
  | [] =>
      forall key d0 d1,
        deals s !! key = Some d0 -> deals (next r s) !! key = Some d1 ->
        Deal.status d1 = Deal.status d0
        \/ (Deal.status d0 = pending /\ Deal.status d1 = rejected)
  | [deal] =>
      exists key d0,
        deals s !! key = Some d0 /\ Deal.status d0 = pending
        /\ deals (next r s) !! key = Some deal
        /\ (Deal.status deal = promoted \/ Deal.status deal = verified)
        /\ (forall key', key' <> key -> deals (next r s) !! key' = deals s !! key')
        /\ (forall dealId userId, r <> POST_deals_vote dealId userId)
  | _ => False
  end.
Proof.
  intros Hfresh.
  destruct (step_cases r s) as [(-> & _ & _ & Hstatus) | (key & d0 & d1 & now & Hscan)].
  - intros key d0 d1. by apply Hstatus.
  - destruct Hscan as (Hk0 & Hp & Hk1 & Hsucc & Hothers & _ & Hscans & _).
    rewrite Hscans. exists key, d0. repeat split; try done.
    intros dealId userId ->. revert Hscans.
    unfold effects, handle, post_deals_vote. by repeat case_match.
Qed.

Lemma scan_on_success_only_example :
  alert_scans (effects third_valid two_valid) = [rtx_verified]
  /\ exists key d0,
       deals two_valid !! key = Some d0 /\ Deal.status d0 = pending
       /\ deals (next third_valid two_valid) !! key = Some rtx_verified.
Proof.
  assert (alert_scans (effects third_valid two_valid) = [rtx_verified]) as Hscans
    by (vm_compute; reflexivity).
  split; [exact Hscans |].
  pose proof (scan_on_success_only third_valid two_valid I) as Hstep.
  rewrite Hscans in Hstep.
  destruct Hstep as (key & d0 & Hk0 & Hp & Hk1 & _).
  exists key, d0. split; [exact Hk0 |]. split; [exact Hp | exact Hk1].
Defined.

(** ** The default minimum of verifications *)

Lemma omap_get_set_eq {A} k (a : A) m : omap_get k (omap_set k a m) = Some a.
Proof.
  induction m as [| [k' a'] m IH]; simpl.
  - by rewrite String.eqb_refl.
  - destruct (String.eqb k' k) eqn:Hk; simpl; [by rewrite String.eqb_refl |].
    by rewrite Hk.
Qed.




(** ** Duplicate verifications *)

Lemma users_step r s u :
  is_Some (users s !! u) -> is_Some (users (next r s) !! u).
Proof.
  intros Hu.
  assert (forall key (x : User.t), is_Some (<[key := x]> (users s) !! u)) as Hins.
  { intros key x. destruct (decide (key = u)) as [-> | ?];
      [rewrite lookup_insert_eq; eauto | by rewrite lookup_insert_ne]. }
  destruct r; unfold next, handle, post_users_register, post_deals, post_deals_vote,
    post_deals_verify, post_alerts, delete_alerts, post_config_mode, timer_due,
    checkPromotion, checkAlertsForDeal; simpl;
    repeat case_match; simplify_eq/=; auto.
Qed.

Lemma users_run rs : forall s u, is_Some (users s !! u) -> is_Some (users (run rs s) !! u).
Proof. induction rs; simpl; eauto using users_step. Qed.

(** What a successful verification request found and what it leaves. *)
Lemma verify_accepted s dealId body uuid now v deal' :
  response (POST_deals_verify dealId body uuid now) s = Ok (DealVerified v deal') ->
  exists deal userId,
    deals s !! dealId = Some deal
    /\ Body.userId body = Some userId
    /\ Verification.verifierId v = userId
    /\ is_Some (users (next (POST_deals_verify dealId body uuid now) s) !! userId)
    /\ verifications (next (POST_deals_verify dealId body uuid now) s) !! uuid = Some v.
Proof.
  unfold response, next, handle, post_deals_verify.
  destruct (deals s !! dealId) as [deal |]; [| done].
  destruct (Body.userId body) as [userId |]; [| done]. simpl.
  destruct (users s !! userId) as [user |]; [| done].
  case_match; [done |].
  case_bool_decide.
  - destruct (checkConsensus _ now (alerts s)) as [[deal2 m'] sent]. simpl.
    intros [= <- <-]. exists deal, userId. rewrite !lookup_insert_eq. eauto 10.
  - simpl. intros [= <- <-]. exists deal, userId. rewrite !lookup_insert_eq. eauto 10.
Qed.

(** C8. Once a user's verification of a deal has been accepted, every later
    verification request of that user for that deal, whatever was served in
    between, is answered with status 409 and changes nothing: the store,
    with the deal's verification list (hence its tallies), its status and
    the verification store, is the one before the request, and nothing is
    broadcast. *)
Theorem duplicate_verification_refused
    (s : Server) (dealId userId : string) (first : Body.verify) (uuid1 : string) (t1 : Z)
    (v : Verification.t) (deal1 : Deal.t) (between : list Request)
    (second : Body.verify) (uuid2 : string) (t2 : Z) :
  Body.userId first = Some userId ->
  Body.userId second = Some userId ->
  response (POST_deals_verify dealId first uuid1 t1) s = Ok (DealVerified v deal1) ->
  fresh_run between (next (POST_deals_verify dealId first uuid1 t1) s) ->
  let s' := run between (next (POST_deals_verify dealId first uuid1 t1) s) in
  handle (POST_deals_verify dealId second uuid2 t2) s'
  = (Error 409 "You already verified this deal", s', []).
Proof.
  intros Hfirst Hsecond Hresp Hfresh s'.
  destruct (verify_accepted _ _ _ _ _ _ _ Hresp)
    as (deal & userId' & Hdeal & Hid & Hv & Huser & _).
  assert (userId' = userId) as -> by congruence.
  destruct (verify_stores _ _ _ _ _ _ _ _ Hdeal Hresp) as [Hstored Hout].
  assert (Deal.verifications deal1 = Deal.verifications deal ++ [v]) as Hvs.
  { rewrite Hout. case_bool_decide; [| done].
    rewrite checkConsensus_deal. by repeat case_match. }
  destruct (run_deal between _ dealId deal1 Hfresh Hstored)
    as (deal2 & Hdeal2 & _ & _ & more & Hmore).
  destruct (users_run between _ userId Huser) as [user Huser2].
  fold s' in Hdeal2, Huser2.
  unfold handle, post_deals_verify. rewrite Hdeal2, Hsecond. simpl. rewrite Huser2.
  rewrite Hmore, Hvs, !existsb_app. simpl.
  by rewrite Hv, String.eqb_refl, !orb_true_r.
Qed.

Lemma duplicate_verification_refused_example :
  handle (verdict_by "u2" "invalid" "v9" 5000)
    (run [verdict_by "u3" "valid" "v2" 3100; vote_by "u2"]
       (next (verdict_by "u2" "valid" "v1" 3000) decentralized_market))
  = (Error 409 "You already verified this deal",
     run [verdict_by "u3" "valid" "v2" 3100; vote_by "u2"]
       (next (verdict_by "u2" "valid" "v1" 3000) decentralized_market),
     []).
Proof.
  apply (duplicate_verification_refused decentralized_market "d1" "u2"
           (verdict_body "u2" "valid") "v1" 3000 first_verification rtx_one_valid
           [verdict_by "u3" "valid" "v2" 3100; vote_by "u2"]
           (verdict_body "u2" "invalid") "v9" 5000).
  - reflexivity.
  - reflexivity.
  - vm_compute. reflexivity.
  - vm_compute. tauto.
Defined.

(** ** Submission *)

(** A negative price passes the validation and the deal is created; a sound
    draft from an unknown submitter is answered with status 404, not with a
    deal. Both contradict the rule with the positive price. *)
Lemma negative_price_accepted :
  positive (JS.parseFloat (Body.price negative_draft)) = false
  /\ response (POST_deals negative_draft "d2" 2000) registered
     = Ok (DealCreated negative_deal)
  /\ deals (next (POST_deals negative_draft "d2" 2000) registered) !! "d2"
     = Some negative_deal
  /\ response (POST_deals stranger_draft "d3" 2000) registered
     = Error 404 "User not found"
  /\ ~ submit_validates_positive_price.
Proof.
  split; [reflexivity |].
  assert (response (POST_deals negative_draft "d2" 2000) registered
          = Ok (DealCreated negative_deal)) as Hresp by (vm_compute; reflexivity).
  split; [exact Hresp |].
  split; [vm_compute; reflexivity |].
  split; [vm_compute; reflexivity |].
  intros Hrule.
  destruct (Hrule registered negative_draft "d2" 2000%Z) as [Hrefuse _].
  destruct Hrefuse as [error Herror].
  - repeat right. reflexivity.
  - unfold response in Hresp. rewrite Herror in Hresp. discriminate Hresp.
Qed.

Lemma present_false field : present field = false <-> absent field.
Proof.
  unfold present, absent. destruct field as [text |]; simpl.
  - rewrite negb_false_iff. destruct (String.eqb_spec text EmptyString) as [-> | Hne].
    + split; [by right | done].
    + split; [done | intros [? | [= ?]]; done].
  - split; [by left | done].
Qed.

(** The values that the test [!price] takes for missing. *)
Lemma falsy_values v :
  JS.truthy v = false
  <-> v = JS.JUndefined \/ v = JS.JNull \/ v = JS.JBool false \/ v = JS.JNum JS.NaN
      \/ (exists q, v = JS.JNum (JS.Finite q) /\ Qeq q 0) \/ v = JS.JStr EmptyString.
Proof.
  split.
  - destruct v as [| | [] | [| |q] | text]; simpl; try done; eauto 10.
    + rewrite negb_false_iff. unfold JS.is_zero. intros Hq%Qeq_bool_iff. eauto 10.
    + rewrite negb_false_iff. intros ->%String.eqb_eq. eauto 10.
  - intros [-> | [-> | [-> | [-> | [(q & -> & Hq) | ->]]]]]; simpl; try done.
    apply Qeq_bool_iff in Hq. unfold JS.is_zero. by rewrite Hq.
Qed.

Lemma positive_truthy v : positive (JS.parseFloat v) = true -> JS.truthy v = true.
Proof.
  destruct v as [| | b | [| | q] | text]; simpl; try done.
  - intros Hq. apply negb_true_iff in Hq. apply negb_true_iff. unfold JS.is_zero.
    destruct (Qeq_bool q 0) eqn:Hz; [| done].
    apply Qeq_bool_iff in Hz.
    assert (Qle_bool q 0 = true) as Hle by (apply Qle_bool_iff; rewrite Hz; apply Qle_refl).
    congruence.
  - by destruct text.
Qed.

(** C9, as the code has it. A draft is refused with status 400, and the
    store left as it is, exactly when its title, URL or submitter is absent or
    empty or its price is missing, null, false, zero, NaN or the empty string.
    A draft that passes is refused with status 404 when its submitter is not a
    registered user. Any other draft creates a deal, stored under the new
    identifier and announced: pending, with no vote and no verification, its
    price read from the draft by [parseFloat]. A positive price always passes
    the price test; so do negative numbers and texts that are not numerals. *)
Theorem submit_validation (s : Server) (body : Body.deal) (uuid : string) (now : Z) :
  let refused :=
    absent (Body.title body) \/ JS.truthy (Body.price body) = false
    \/ absent (Body.url body) \/ absent (Body.submittedBy body) in
  (refused <->
   handle (POST_deals body uuid now) s = (Error 400 "Missing required fields", s, []))
  /\ (~ refused -> lookup_field (Body.submittedBy body) (users s) = None ->
      handle (POST_deals body uuid now) s = (Error 404 "User not found", s, []))
  /\ (~ refused -> is_Some (lookup_field (Body.submittedBy body) (users s)) ->
      exists deal,
        response (POST_deals body uuid now) s = Ok (DealCreated deal)
        /\ effects (POST_deals body uuid now) s = [Broadcast (NEW_DEAL deal)]
        /\ deals (next (POST_deals body uuid now) s) !! uuid = Some deal
        /\ Deal.status deal = pending /\ Deal.votes deal = 0
        /\ Deal.verifications deal = []
        /\ Deal.price deal = JS.parseFloat (Body.price body))
  /\ (positive (JS.parseFloat (Body.price body)) = true ->
      JS.truthy (Body.price body) = true).
Proof.
  intros refused.
  assert (refused <->
          negb (present (Body.title body)) || negb (JS.truthy (Body.price body))
          || negb (present (Body.url body)) || negb (present (Body.submittedBy body)) = true)
    as Htest.
  { unfold refused. rewrite !orb_true_iff, !negb_true_iff, !present_false. tauto. }
  split; [| split; [| split]]; [| | | apply positive_truthy].
  - unfold handle, post_deals. rewrite Htest.
    destruct (_ || _ || _ || _); [by split |].
    split; [done |]. by repeat case_match.
  - intros Hpass Huser. unfold handle, post_deals. rewrite Huser.
    destruct (_ || _ || _ || _) eqn:Hmissing; [| done].
    destruct Hpass. by apply Htest.
  - intros Hpass [user Huser].
    unfold response, effects, next, handle, post_deals. rewrite Huser.
    destruct (_ || _ || _ || _) eqn:Hmissing; [destruct Hpass; by apply Htest |].
    eexists. simpl.
    case_bool_decide; simpl; rewrite lookup_insert_eq; repeat split; done.
Qed.

Lemma submit_validation_example :
  exists deal,
    response submit_rtx centralized_alerted = Ok (DealCreated deal)
    /\ Deal.status deal = pending /\ Deal.votes deal = 0 /\ Deal.verifications deal = [].
Proof.
  destruct (submit_validation centralized_alerted rtx_draft "d1" 2000)
    as (_ & _ & Hcreates & _).
  destruct Hcreates as (deal & Hresp & _ & _ & Hp & Hv & Hn & _).
  - intros [[[=] | [=]] | [[=] | [[[=] | [=]] | [[=] | [=]]]]].
  - vm_compute. eauto.
  - exists deal. repeat split; assumption.
Defined.

(** ** The scenarios of the specification and of the README *)

(** Three 'valid' verdicts and no 'invalid' one: verified, and the alert
    fires once, after the [DEAL_VERIFIED] broadcast. *)
Example three_valid_verified :
  Deal.status <$> deals (run four_valid decentralized_market) !! "d1" = Some verified
  /\ fired "a1" "d1" (trace four_valid decentralized_market) = 1.
Proof. vm_compute. auto. Qed.

(** Three 'invalid' verdicts against two 'valid' ones: rejected, no scan. *)
Example three_invalid_rejected :
  let rs := [POST_users_register {| Body.username := Some "erin" |} "u5" 1000;
             verdict_by "u1" "valid" "v1" 3000; verdict_by "u2" "valid" "v2" 3100;
             verdict_by "u3" "invalid" "v3" 3200; verdict_by "u4" "invalid" "v4" 3300;
             verdict_by "u5" "invalid" "v5" 3400] in
  Deal.status <$> deals (run rs decentralized_market) !! "d1" = Some rejected
  /\ alert_scans (trace rs decentralized_market) = [].
Proof. vm_compute. auto. Qed.

(** Two of five votes when the check comes due: pending for good, and the
    alert never fires. *)
Example under_voted_stays_pending :
  let rs := two_votes ++ [TimerDue "d1" 12000] ++ late_activity in
  Deal.status <$> deals (run rs centralized_market) !! "d1" = Some pending
  /\ fired "a1" "d1" (trace rs centralized_market) = 0.
Proof. vm_compute. auto. Qed.

(** README, scenario 1: five votes promote the deal at the check, yet the
    matching alert stays silent, the deal having no verification. *)
Example promoted_without_verification :
  let rs := [vote_by "u1"; vote_by "u2"; vote_by "u3"; vote_by "u4"; vote_by "u2";
             TimerDue "d1" 12000] in
  Deal.status <$> deals (run rs centralized_market) !! "d1" = Some promoted
  /\ alert_scans (trace rs centralized_market)
     = [Deal.set_promotedAt (Some 12000%Z) (Deal.set_status promoted (Deal.set_votes 5 rtx_deal))]
  /\ fired "a1" "d1" (trace rs centralized_market) = 0.
Proof. vm_compute. auto. Qed.

(** A deal submitted under decentralized mode has no promotion check, even
    after a switch to centralized mode and five votes. *)
Example no_check_after_switch :
  let rs := [POST_config_mode (JS.JStr "centralized");
             vote_by "u1"; vote_by "u2"; vote_by "u3"; vote_by "u4"; vote_by "u2";
             TimerDue "d1" 12000] in
  pending_checks "d1" decentralized_market = 0
  /\ Deal.status <$> deals (run rs decentralized_market) !! "d1" = Some pending.
Proof. vm_compute. auto. Qed.

(** The store is well formed in every state the server reaches. *)
Lemma reachable_wf rs :
  alerts_wf (alerts (run rs initial)) /\ timers_stored (run rs initial).
Proof.
  split; [apply alerts_wf_run, alerts_wf_initial
         | apply timers_stored_run, timers_stored_initial].
Qed.

(** ** JavaScript scalars at work *)

Example parseFloat_decimal : JS.num_eq (JS.parseFloat (JS.JStr "649.99")) (JS.Finite (64999 # 100)) = true.
Proof. reflexivity. Qed.

Example parseFloat_prefix : JS.num_eq (JS.parseFloat (JS.JStr "  -1.5e+3 USD")) (JS.Finite (-1500)) = true.
Proof. reflexivity. Qed.

Example parseFloat_bad_exponent : JS.num_eq (JS.parseFloat (JS.JStr "12e")) (JS.Finite 12) = true.
Proof. reflexivity. Qed.

Example parseFloat_words : JS.parseFloat (JS.JStr "cheap") = JS.NaN.
Proof. reflexivity. Qed.

Example ToNumber_hex : JS.num_eq (JS.ToNumber (JS.JStr " 0x1F ")) (JS.Finite 31) = true.
Proof. reflexivity. Qed.

Example ToNumber_trailing : JS.ToNumber (JS.JStr "3 checks") = JS.NaN.
Proof. reflexivity. Qed.

Example ToNumber_blank : JS.ToNumber (JS.JStr "  ") = JS.Finite 0.
Proof. reflexivity. Qed.

Example includes_lower : JS.includes (JS.toLowerCase "Gaming LAPTOP 15in") "laptop" = true.
Proof. reflexivity. Qed.

Example trim_both : JS.trim "  alice  " = "alice".
Proof. reflexivity. Qed.


(** * Further properties of the handlers *)

(** ** Refused requests *)

(** X1. A request answered with an error status (400, 404 or 409) leaves the
    whole store as it was and broadcasts nothing. *)
Theorem error_leaves_store (r : Request) (s : Server) (code : nat) (error : string) :
  response r s = Error code error ->
  next r s = s /\ effects r s = [].
Proof.
  unfold response, next, effects.
  destruct r; unfold handle.
  - unfold post_users_register. by repeat case_match.
  - unfold post_deals. by repeat case_match.
  - unfold post_deals_vote. by repeat case_match.
  - unfold post_deals_verify.
    destruct (deals s !! dealId); [| done].
    destruct (Body.userId body); [| done]. simpl.
    destruct (users s !! _); [| done].
    case_match; [done |].
    case_bool_decide; [| done].
    by destruct (checkConsensus _ _ _) as [[? ?] ?].
  - unfold post_alerts. by repeat case_match.
  - done.
  - unfold post_config_mode. by repeat case_match.
  - unfold timer_due. case_match; [| done].
    by destruct (checkPromotion _ _ _).
Qed.

Lemma error_leaves_store_example :
  next (verdict_by "nobody" "valid" "v1" 3000) decentralized_market = decentralized_market
  /\ effects (verdict_by "nobody" "valid" "v1" 3000) decentralized_market = [].
Proof.
  apply (error_leaves_store _ decentralized_market 404 "User not found").
  vm_compute. reflexivity.
Defined.

(** ** Registration *)




(** ** Votes *)

Lemma set_votes_twice a b d : Deal.set_votes a (Deal.set_votes b d) = Deal.set_votes a d.
Proof. reflexivity. Qed.

(** X3. Votes are not deduplicated: when a registered user votes [n] times
    for a stored deal, every vote is accepted and the deal ends with [n] more
    votes, nothing else of it being touched. *)
Theorem votes_accumulate (n : nat) (s : Server) (dealId userId : string) (deal : Deal.t) :
  deals s !! dealId = Some deal ->
  is_Some (users s !! userId) ->
  deals (run (votes_by n dealId userId) s) !! dealId
  = Some (Deal.set_votes (Deal.votes deal + n) deal).
Proof.
  revert s deal. induction n as [| n IH]; intros s deal Hdeal [user Huser]; simpl.
  - rewrite Hdeal, Nat.add_0_r. by destruct deal.
  - unfold votes_by in IH.
    rewrite (IH _ (Deal.set_votes (Deal.votes deal + 1) deal)).
    + simpl. rewrite set_votes_twice. by rewrite <- Nat.add_assoc.
    + unfold next, handle, post_deals_vote. rewrite Hdeal. simpl. rewrite Huser. simpl.
      by rewrite lookup_insert_eq.
    + unfold next, handle, post_deals_vote. rewrite Hdeal. simpl. rewrite Huser. simpl.
      by exists user.
Qed.

Lemma votes_accumulate_example :
  Deal.votes <$> deals (run (votes_by 7 "d1" "u2") centralized_market) !! "d1" = Some 7.
Proof.
  rewrite (votes_accumulate 7 centralized_market "d1" "u2" rtx_deal).
  - reflexivity.
  - vm_compute. reflexivity.
  - eexists. vm_compute. reflexivity.
Defined.

(** ** Where a stored deal comes from *)

Lemma not_verifier userId d :
  existsb (fun v => String.eqb (Verification.verifierId v) userId) (Deal.verifications d)
  = false ->
  userId ∉ verifiers d.
Proof.
  unfold verifiers. intros Hno Hin.
  apply list_elem_of_fmap in Hin as (v & -> & Hv).
  assert (existsb (fun v' => String.eqb (Verification.verifierId v')
                               (Verification.verifierId v))
                  (Deal.verifications d) = true) as Hyes; [| congruence].
  apply existsb_exists. exists v. split; [by apply list_elem_of_In |].
  apply String.eqb_refl.
Qed.

Lemma deal_provenance r s k d' :
  deals (next r s) !! k = Some d' -> deal_change r k (deals s !! k) d'.
Proof.
  destruct r; unfold next, handle.
  - unfold post_users_register. repeat case_match; simpl; intros ->; constructor.
  - unfold post_deals.
    destruct (_ || _); [simpl; intros ->; constructor |].
    destruct (lookup_field _ _) as [user |]; [| simpl; intros ->; constructor].
    cbv zeta. case_bool_decide; simpl.
    all: destruct (decide (uuid = k)) as [-> | Hne];
      [ rewrite lookup_insert_eq; intros [= <-];
        by eapply (change_new _ _ _ body now (User.username user))
      | rewrite lookup_insert_ne by done; intros ->; constructor ].
  - unfold post_deals_vote.
    destruct (deals s !! dealId) as [deal |] eqn:Hdeal; [| simpl; intros ->; constructor].
    destruct (lookup_field _ _); [| simpl; intros ->; constructor].
    simpl. destruct (decide (dealId = k)) as [-> | Hne].
    + rewrite lookup_insert_eq, Hdeal. intros [= <-]. by econstructor.
    + rewrite lookup_insert_ne by done. intros ->. constructor.
  - unfold post_deals_verify.
    destruct (deals s !! dealId) as [deal |] eqn:Hdeal; [| simpl; intros ->; constructor].
    destruct (Body.userId body) as [userId |] eqn:Huser; [| simpl; intros ->; constructor].
    simpl. destruct (users s !! userId) as [user |]; [| simpl; intros ->; constructor].
    destruct (existsb _ _) eqn:Hdup; [simpl; intros ->; constructor |].
    apply not_verifier in Hdup.
    set (v := Verification.make _ _ _ _ _ _ _).
    set (deal1 := Deal.set_verifications _ _).
    assert (exists deal2 m' sent,
               (if bool_decide (Config.mode (config s) = decentralized)
                then checkConsensus deal1 now (alerts s) else (deal1, alerts s, []))
               = (deal2, m', sent)
               /\ (deal2 = deal1
                   \/ (Deal.status deal = pending
                       /\ (deal2 = Deal.set_verifiedAt (Some now) (Deal.set_status verified deal1)
                           \/ deal2 = Deal.set_status rejected deal1))))
      as (deal2 & m' & sent & -> & Hout).
    { case_bool_decide; [| by eexists _, _, _; split; [| left]].
      destruct (checkConsensus_cases deal1 now (alerts s)) as [[Hp Hc] | [[Hp Hc] | Hc]];
        simpl in Hc; rewrite Hc; eexists _, _, _; (split; [done |]); eauto. }
    simpl. destruct (decide (dealId = k)) as [-> | Hne].
    + rewrite lookup_insert_eq, Hdeal. intros [= <-].
      destruct Hout as [-> | [Hp [-> | ->]]].
      * by eapply (change_verification _ _ body uuid now deal v).
      * by eapply (change_verified _ _ body uuid now deal v).
      * by eapply (change_rejected _ _ body uuid now deal v).
    + rewrite lookup_insert_ne by done. intros ->. constructor.
  - unfold post_alerts. repeat case_match; simpl; intros ->; constructor.
  - simpl. intros ->. constructor.
  - unfold post_config_mode. repeat case_match; simpl; intros ->; constructor.
  - unfold timer_due.
    destruct (includes_id _ _); [| simpl; intros ->; constructor].
    unfold checkPromotion, checkAlertsForDeal. simpl.
    destruct (deals s !! dealId) as [deal |] eqn:Hdeal; [| simpl; intros ->; constructor].
    destruct (is_pending (Deal.status deal)) eqn:Hp; simpl; [| intros ->; constructor].
    destruct (_ <=? _); simpl; [| intros ->; constructor].
    destruct (forEach_alert _ now (alerts s)) as [m' sent]. simpl.
    apply is_pending_true in Hp.
    destruct (decide (dealId = k)) as [-> | Hne].
    + rewrite lookup_insert_eq, Hdeal. intros [= <-]. by constructor.
    + rewrite lookup_insert_ne by done. intros ->. constructor.
Qed.

Lemma initial_deals (P : string -> Deal.t -> Prop) : map_Forall P (deals initial).
Proof. apply map_Forall_empty. Qed.

Lemma initial_users (P : string -> User.t -> Prop) : map_Forall P (users initial).
Proof. apply map_Forall_empty. Qed.

(** An invariant of the steps is an invariant of the runs. *)
Lemma run_invariant (P : Server -> Prop) :
  (forall r s, P s -> P (next r s)) ->
  forall rs s, P s -> P (run rs s).
Proof. intros Hstep rs. induction rs as [| r rs IH]; simpl; eauto. Qed.

(** ** Invariants of the deal store *)

Lemma verifiers_snoc d v :
  verifiers (Deal.set_verifications (Deal.verifications d ++ [v]) d)
  = verifiers d ++ [Verification.verifierId v].
Proof. unfold verifiers. simpl. by rewrite map_app. Qed.

Lemma NoDup_snoc_fresh (l : list string) x : NoDup l -> x ∉ l -> NoDup (l ++ [x]).
Proof.
  intros Hl Hx. apply NoDup_app. repeat split; [done | | apply NoDup_singleton].
  intros y Hy ->%list_elem_of_singleton. by apply Hx.
Qed.

Lemma one_verdict_each_step r s : one_verdict_each s -> one_verdict_each (next r s).
Proof.
  intros Hinv k d' Hk'. apply deal_provenance in Hk'.
  remember (deals s !! k) as before eqn:Hbefore. symmetry in Hbefore.
  destruct Hk' as [d | before body now user d _ _ _ _ Hvs | userId d _
                   | body uuid now d v _ _ Hnew | body uuid now d v _ _ Hnew _
                   | body uuid now d v _ _ Hnew _ | now d _ _].
  all: try (change (NoDup (verifiers d)); by apply (Hinv k)).
  - unfold verifiers. rewrite Hvs. constructor.
  - simpl. rewrite verifiers_snoc.
    apply NoDup_snoc_fresh; [by apply (Hinv k) | done].
  - change (NoDup (verifiers (Deal.set_verifications (Deal.verifications d ++ [v]) d))).
    rewrite verifiers_snoc. apply NoDup_snoc_fresh; [by apply (Hinv k) | done].
  - change (NoDup (verifiers (Deal.set_verifications (Deal.verifications d ++ [v]) d))).
    rewrite verifiers_snoc. apply NoDup_snoc_fresh; [by apply (Hinv k) | done].
Qed.

(** X4. In every state the server reaches, no user appears twice among the
    verifiers of a deal: there is at most one verification per deal and
    verifier. *)
Theorem verifiers_distinct (rs : list Request) (k : string) (d : Deal.t) :
  deals (run rs initial) !! k = Some d ->
  NoDup (verifiers d).
Proof.
  intros Hk.
  assert (one_verdict_each (run rs initial)) as Hinv.
  { apply run_invariant; [apply one_verdict_each_step | apply initial_deals]. }
  by apply (Hinv k).
Qed.

Lemma verifiers_distinct_example :
  verifiers (default rtx_deal (deals (run busy_session initial) !! "d1"))
  = ["u2"; "u3"; "u4"; "u1"]
  /\ NoDup (verifiers (default rtx_deal (deals (run busy_session initial) !! "d1"))).
Proof.
  split; [vm_compute; reflexivity |].
  apply (verifiers_distinct busy_session "d1").
  vm_compute. reflexivity.
Defined.

Lemma ids_keyed_step r s : ids_keyed s -> ids_keyed (next r s).
Proof.
  intros Hinv k d' Hk'. apply deal_provenance in Hk'.
  remember (deals s !! k) as before eqn:Hbefore. symmetry in Hbefore.
  destruct Hk' as [d | | ? d | ? ? ? d | ? ? ? d | ? ? ? d | ? d]; simpl; try done.
  all: change (Deal.id d = k); by apply (Hinv k).
Qed.

Lemma stamped_step r s :
  map_Forall (fun _ d => stamped d) (deals s) ->
  map_Forall (fun _ d => stamped d) (deals (next r s)).
Proof.
  intros Hinv k d' Hk'. apply deal_provenance in Hk'.
  remember (deals s !! k) as before eqn:Hbefore. symmetry in Hbefore.
  destruct Hk' as [d | before body now user d _ _ _ _ _ _ Hst Hp Hv | userId d _
                   | body uuid now d v _ _ _ | body uuid now d v _ _ _ Hst
                   | body uuid now d v _ _ _ Hst | now d _ Hst].
  all: try (change (stamped d); by apply (Hinv k)).
  - unfold stamped. rewrite Hst, Hp, Hv.
    split; split; intros H; try discriminate H; by destruct H.
  - destruct (Hinv k d Hbefore) as [Hp Hv]. rewrite Hst in Hp, Hv.
    unfold stamped. simpl. split; [| by split; eauto].
    rewrite Hp. split; discriminate.
  - destruct (Hinv k d Hbefore) as [Hp Hv]. rewrite Hst in Hp, Hv.
    unfold stamped. simpl. rewrite Hp, Hv. split; split; discriminate.
  - destruct (Hinv k d Hbefore) as [Hp Hv]. rewrite Hst in Hp, Hv.
    unfold stamped. simpl. split; [by split; eauto |].
    rewrite Hv. split; discriminate.
Qed.

(** X5. In every state the server reaches, a deal sits under its own
    identifier, its promotion time is set exactly when it is promoted and its
    verification time exactly when it is verified. *)
Theorem deals_consistent (rs : list Request) (k : string) (d : Deal.t) :
  deals (run rs initial) !! k = Some d ->
  Deal.id d = k
  /\ (is_Some (Deal.promotedAt d) <-> Deal.status d = promoted)
  /\ (is_Some (Deal.verifiedAt d) <-> Deal.status d = verified).
Proof.
  intros Hk. split.
  - assert (ids_keyed (run rs initial)) as Hinv.
    { apply run_invariant; [apply ids_keyed_step | apply initial_deals]. }
    by apply (Hinv k).
  - assert (map_Forall (fun _ d => stamped d) (deals (run rs initial))) as Hinv.
    { apply (run_invariant (fun s => map_Forall (fun _ d => stamped d) (deals s)));
        [apply stamped_step | apply initial_deals]. }
    by apply (Hinv k).
Qed.

Lemma deals_consistent_example :
  Deal.status (default rtx_deal (deals (run busy_session initial) !! "d1")) = verified
  /\ is_Some (Deal.verifiedAt (default rtx_deal (deals (run busy_session initial) !! "d1")))
  /\ ~ is_Some (Deal.promotedAt (default rtx_deal (deals (run busy_session initial) !! "d1"))).
Proof.
  assert (Deal.status (default rtx_deal (deals (run busy_session initial) !! "d1")) = verified)
    as Hst by (vm_compute; reflexivity).
  destruct (deals_consistent busy_session "d1"
              (default rtx_deal (deals (run busy_session initial) !! "d1")))
    as (_ & Hp & Hv); [vm_compute; reflexivity |].
  split; [exact Hst |]. split; [by apply Hv |].
  intros Hset. apply Hp in Hset. rewrite Hst in Hset. discriminate Hset.
Defined.

(** ** Users *)

Lemma users_inert_step r s : users_inert s -> users_inert (next r s).
Proof.
  intros Hinv k u'.
  assert (forall key (x : User.t),
             User.id x = key /\ User.reputationScore x = 100 ->
             <[key := x]> (users s) !! k = Some u' ->
             User.id u' = k /\ User.reputationScore u' = 100) as Hins.
  { intros key x Hx. destruct (decide (key = k)) as [-> | Hne].
    - rewrite lookup_insert_eq. by intros [= <-].
    - rewrite lookup_insert_ne by done. apply Hinv. }
  destruct r; unfold next, handle.
  - unfold post_users_register. repeat case_match; simpl; try apply Hinv.
    by apply Hins.
  - unfold post_deals. repeat case_match; simpl; apply Hinv.
  - unfold post_deals_vote. repeat case_match; simpl; apply Hinv.
  - unfold post_deals_verify.
    destruct (deals s !! dealId); [| apply Hinv].
    destruct (Body.userId body) as [userId |]; [| apply Hinv]. simpl.
    destruct (users s !! userId) as [user |] eqn:Huser; [| apply Hinv].
    case_match; [apply Hinv |].
    destruct (if bool_decide _ then _ else _) as [[deal2 m'] sent]. simpl.
    apply Hins. simpl. by apply (Hinv userId).
  - unfold post_alerts. repeat case_match; simpl; apply Hinv.
  - apply Hinv.
  - unfold post_config_mode. repeat case_match; simpl; apply Hinv.
  - unfold timer_due, checkPromotion, checkAlertsForDeal. simpl.
    repeat case_match; simplify_eq/=; apply Hinv.
Qed.

(** X6. Nothing ever touches a reputation score: in every state the server
    reaches each user sits under their own identifier with the reputation 100
    they were registered with, whatever they verified. *)
Theorem reputation_inert (rs : list Request) (k : string) (u : User.t) :
  users (run rs initial) !! k = Some u ->
  User.id u = k /\ User.reputationScore u = 100.
Proof.
  intros Hk.
  assert (users_inert (run rs initial)) as Hinv.
  { apply run_invariant; [apply users_inert_step | apply initial_users]. }
  by apply (Hinv k).
Qed.

Lemma reputation_inert_example :
  User.verificationHistory
    (default (User.make "u2" "bob" 100 [] 1000) (users (run busy_session initial) !! "u2"))
  = ["v1"]
  /\ User.reputationScore
       (default (User.make "u2" "bob" 100 [] 1000) (users (run busy_session initial) !! "u2"))
     = 100.
Proof.
  split; [vm_compute; reflexivity |].
  apply (reputation_inert busy_session "u2"). vm_compute. reflexivity.
Defined.

(** ** What the alert scan sends *)

Lemma forEach_alert_sends deal now m :
  Forall (fun e => exists k a,
              (k, a) ∈ m /\ e = Broadcast (ALERT_TRIGGERED (notification_of a deal now)))
         (forEach_alert deal now m).2.
Proof.
  induction m as [| [k a] m IH]; simpl; [constructor |].
  destruct (check_alert deal now a) as [a' sent] eqn:Ha.
  destruct (forEach_alert deal now m) as [m' sent']. simpl in *.
  apply Forall_app. split.
  - unfold check_alert in Ha. repeat case_match; simplify_eq; constructor; [| constructor].
    exists k, a. split; [left | done].
  - eapply Forall_impl; [exact IH |]. intros e (k' & a0 & Hin & ->).
    exists k', a0. split; [by right | done].
Qed.

Lemma fired_other_deal deal now m k d :
  Deal.id deal <> d -> fired k d (forEach_alert deal now m).2 = 0.
Proof.
  intros Hne. induction m as [| [k' a] m IH]; simpl; [done |].
  pose proof (fired_check_alert deal now a k d) as Hf.
  destruct (check_alert deal now a) as [a' sent].
  destruct (forEach_alert deal now m) as [m' sent']. simpl in *.
  rewrite fired_app, IH, Hf.
  destruct (String.eqb_spec (Deal.id deal) d); [done |].
  by rewrite andb_false_r.
Qed.

Lemma unpriced_scan deal now m :
  Deal.price deal = JS.NaN -> (forEach_alert deal now m).2 = [].
Proof.
  intros Hnan. induction m as [| [k a] m IH]; simpl; [done |].
  assert (check_alert deal now a = (a, [])) as ->.
  { unfold check_alert, priceMatch. rewrite Hnan. simpl. by rewrite andb_false_r. }
  destruct (forEach_alert deal now m) as [m' sent']. simpl in *. by rewrite IH.
Qed.

(** A stored deal keeps its price and its submission time. *)
Lemma step_deal_frame r s k d :
  fresh_uuid r s -> deals s !! k = Some d ->
  exists d', deals (next r s) !! k = Some d'
    /\ Deal.price d' = Deal.price d /\ Deal.timestamp d' = Deal.timestamp d
    /\ Deal.id d' = Deal.id d
    /\ (Deal.status d <> pending -> Deal.status d' = Deal.status d).
Proof.
  intros Hfresh Hk.
  destruct (step_deal r s k d Hfresh Hk) as (d' & Hk' & Hid & Hst & _).
  exists d'. split; [done |].
  pose proof (deal_provenance r s k d' Hk') as Hchange. rewrite Hk in Hchange.
  repeat split; [| | done | by apply evolves_terminal].
  - inversion Hchange; subst; simpl in *; try done. congruence.
  - inversion Hchange; subst; simpl in *; try done. congruence.
Qed.

(** X7. A deal that is no longer pending is never scanned against the alerts
    again: over any later run no alert is notified for it. Alerts fire for a
    deal only in the step that takes it out of pending. *)
Theorem settled_deal_silent (rs : list Request) (s : Server) (d : string) (deal : Deal.t) :
  ids_keyed s ->
  fresh_run rs s ->
  deals s !! d = Some deal ->
  Deal.status deal <> pending ->
  forall k, fired k d (trace rs s) = 0.
Proof.
  revert s deal. induction rs as [| r rs IH]; intros s deal Hkeyed Hfresh Hd Hsettled k;
    simpl; [done |].
  destruct Hfresh as [Hf Hfs]. rewrite fired_app.
  destruct (step_deal_frame r s d deal Hf Hd) as (deal' & Hd' & _ & _ & _ & Hst).
  rewrite (IH (next r s) deal'); [| by apply ids_keyed_step | done | done |].
  - rewrite Nat.add_0_r.
    destruct (step_cases r s) as [(_ & Hnone & _) | (key & d0 & d1 & now & Hscan)];
      [apply Hnone |].
    destruct Hscan as (Hk0 & Hp & Hk1 & _ & _ & _ & _ & ->).
    apply fired_other_deal.
    rewrite (ids_keyed_step r s Hkeyed key d1 Hk1).
    intros ->. congruence.
  - rewrite (Hst Hsettled). exact Hsettled.
Qed.

Lemma settled_deal_silent_example :
  fired "a1" "d1"
    (trace [verdict_by "u1" "valid" "v4" 3300; TimerDue "d1" 12000;
            POST_config_mode (JS.JStr "centralized"); vote_by "u2"]
       (next third_valid two_valid)) = 0.
Proof.
  apply (settled_deal_silent _ (next third_valid two_valid) "d1" rtx_verified).
  - unfold two_valid, decentralized_market, registered.
    apply ids_keyed_step. repeat apply (run_invariant _ ids_keyed_step).
    apply initial_deals.
  - vm_compute. tauto.
  - vm_compute. reflexivity.
  - discriminate.
Defined.

Lemma unpriced_silent_run rs : forall s d deal,
  ids_keyed s -> fresh_run rs s ->
  deals s !! d = Some deal -> Deal.price deal = JS.NaN ->
  forall k, fired k d (trace rs s) = 0.
Proof.
  induction rs as [| r rs IH]; intros s d deal Hkeyed Hfresh Hd Hnan k; simpl; [done |].
  destruct Hfresh as [Hf Hfs]. rewrite fired_app.
  destruct (step_deal_frame r s d deal Hf Hd) as (deal' & Hd' & Hprice & _).
  rewrite (IH (next r s) d deal'); [| by apply ids_keyed_step | done | done | congruence].
  rewrite Nat.add_0_r.
  destruct (step_cases r s) as [(_ & Hnone & _) | (key & d0 & d1 & t & Hscan)];
    [apply Hnone |].
  destruct Hscan as (_ & _ & Hk1 & _ & _ & _ & _ & ->).
  destruct (decide (key = d)) as [-> | Hne].
  - assert (d1 = deal') as -> by congruence.
    rewrite unpriced_scan by congruence. done.
  - apply fired_other_deal. by rewrite (ids_keyed_step r s Hkeyed key d1 Hk1).
Qed.

(** X8. A draft whose price does not read as a number passes the [!price]
    test as soon as the price is a non-empty text; the deal is then stored
    with the price NaN and never notifies any alert, whatever follows, for
    NaN is at most no maximum price. *)
Theorem unpriced_deal_silent
    (s : Server) (body : Body.deal) (uuid : string) (now : Z) (deal : Deal.t)
    (rs : list Request) :
  ids_keyed s ->
  response (POST_deals body uuid now) s = Ok (DealCreated deal) ->
  JS.parseFloat (Body.price body) = JS.NaN ->
  fresh_run rs (next (POST_deals body uuid now) s) ->
  Deal.price deal = JS.NaN
  /\ forall k, fired k uuid (trace rs (next (POST_deals body uuid now) s)) = 0.
Proof.
  intros Hkeyed Hresp Hnan Hfresh.
  destruct (submit_stores _ _ _ _ _ Hresp) as (Hstored & _ & _ & _ & Hprice & _).
  rewrite Hnan in Hprice. split; [exact Hprice |].
  apply (unpriced_silent_run rs _ uuid deal); try done.
  by apply ids_keyed_step.
Qed.

Lemma unpriced_deal_silent_example :
  Deal.status <$> deals (run (verdicts_on "d7")
                           (next (POST_deals cheap_draft "d7" 2700) watched_market)) !! "d7"
  = Some verified
  /\ fired "a3" "d7"
       (trace (verdicts_on "d7") (next (POST_deals cheap_draft "d7" 2700) watched_market))
     = 0.
Proof.
  split; [vm_compute; reflexivity |].
  apply (unpriced_deal_silent watched_market cheap_draft "d7" 2700 cheap_deal).
  - unfold watched_market, registered.
    repeat apply (run_invariant _ ids_keyed_step). apply initial_deals.
  - vm_compute. reflexivity.
  - reflexivity.
  - vm_compute. tauto.
Defined.

Example priced_deal_fires :
  fired "a3" "d7"
    (trace (verdicts_on "d7") (next (POST_deals rtx_draft "d7" 2700) watched_market)) = 1.
Proof. vm_compute. reflexivity. Qed.

(** ** The order of the broadcasts *)

Lemma step_trace_effects r s : step_trace r s (effects r s).
Proof.
  destruct r; unfold effects, handle.
  - unfold post_users_register. repeat case_match; constructor.
  - unfold post_deals. repeat case_match; simpl; by constructor.
  - unfold post_deals_vote. repeat case_match; simpl; by constructor.
  - unfold post_deals_verify.
    destruct (deals s !! dealId) as [deal |] eqn:Hdeal; [| constructor].
    destruct (Body.userId body) as [userId |]; [| constructor]. simpl.
    destruct (users s !! userId) as [user |]; [| constructor].
    destruct (existsb _ _); [constructor |].
    set (v := Verification.make _ _ _ _ _ _ _).
    set (deal1 := Deal.set_verifications _ _).
    case_bool_decide; simpl; [| by constructor].
    destruct (checkConsensus_cases deal1 now (alerts s)) as [[Hp Hc] | [[Hp Hc] | Hc]];
      simpl in Hc; rewrite Hc; simpl.
    + by apply (trace_verified _ _ dealId body uuid now deal v).
    + by constructor.
    + by constructor.
  - unfold post_alerts. repeat case_match; constructor.
  - constructor.
  - unfold post_config_mode. repeat case_match; simpl; by constructor.
  - unfold timer_due.
    destruct (includes_id (timers s) dealId); [| constructor].
    unfold checkPromotion, checkAlertsForDeal. simpl.
    destruct (deals s !! dealId) as [deal |] eqn:Hdeal; [| constructor].
    destruct (is_pending (Deal.status deal)); simpl; [| constructor].
    destruct (_ <=? _); simpl; [| constructor].
    pose proof (trace_promoted (TimerDue dealId now) s dealId deal now eq_refl Hdeal)
      as Hshape.
    simpl in Hshape. by destruct (forEach_alert _ now (alerts s)).
Qed.



(** ** Latency *)

Lemma submitted_by_step r s t :
  submitted_by t s ->
  match time_of r with
  | Some now => (t <= now)%Z -> submitted_by now (next r s)
  | None => submitted_by t (next r s)
  end.
Proof.
  intros Hinv.
  assert (forall t', (t <= t')%Z -> (match time_of r with Some now => now = t' | None => t = t' end) ->
                     submitted_by t' (next r s)) as Hgen.
  { intros t' Hle Htime k d' Hk'. apply deal_provenance in Hk'.
    remember (deals s !! k) as before eqn:Hbefore. symmetry in Hbefore.
    destruct Hk' as [d | before body now user d Hr _ Hts | userId d _
                    | body uuid now d v _ _ _ | body uuid now d v _ _ _ _
                    | body uuid now d v _ _ _ _ | now d _ _]; simpl.
    all: try (pose proof (Hinv k d Hbefore) as Hd; simpl in Hd; lia).
    subst r. simpl in Htime. lia. }
  destruct (time_of r) as [now |]; [intros Hle |]; by apply Hgen.
Qed.

Lemma step_latency r s t now :
  submitted_by t s -> time_of r = Some now -> (t <= now)%Z ->
  Forall latency_ok (effects r s).
Proof.
  intros Hinv Htime Hle.
  assert (forall key d0 d,
             deals s !! key = Some d0 -> Deal.timestamp d = Deal.timestamp d0 ->
             Forall latency_ok (forEach_alert d now (alerts s)).2) as Hscan.
  { intros key d0 d Hd0 Hts.
    eapply Forall_impl; [apply forEach_alert_sends |].
    intros e (k & a & _ & ->). simpl.
    pose proof (Hinv key d0 Hd0) as Hbound. simpl in Hbound. lia. }
  pose proof (step_trace_effects r s) as Hshape.
  destruct Hshape as [| m Hplain | d Hst | key d0 now' Hr Hd0 d | key body uuid now' d0 v Hr Hd0 d].
  - constructor.
  - constructor; [| constructor]. by destruct m.
  - by repeat constructor.
  - subst r. injection Htime as <-.
    constructor; [done |]. constructor; [done |]. by apply (Hscan key d0).
  - subst r. injection Htime as <-.
    constructor; [done |]. constructor; [done |].
    apply Forall_app. split; [by apply (Hscan key d0) | by repeat constructor].
Qed.

(** X10. With a clock that never runs backwards, every alert notification
    carries a latency that is not negative: it is the time from the
    submission of the deal to the step that notifies. *)
Theorem latency_not_negative (rs : list Request) (t : Z) (s : Server) :
  submitted_by t s ->
  monotone_clock t rs ->
  Forall latency_ok (trace rs s).
Proof.
  revert t s. induction rs as [| r rs IH]; intros t s Hinv Hclock; simpl; [constructor |].
  simpl in Hclock. pose proof (submitted_by_step r s t Hinv) as Hstep.
  apply Forall_app.
  destruct (time_of r) as [now |] eqn:Htime.
  - destruct Hclock as [Hle Hrest]. split.
    + by apply (step_latency r s t now).
    + apply (IH now); [by apply Hstep | done].
  - split; [| by apply (IH t)].
    pose proof (step_trace_effects r s) as Hshape.
    destruct Hshape as [| m Hplain | d Hst | key d0 now' Hr | key body uuid now' d0 v Hr];
      try (subst r; discriminate Htime).
    + constructor.
    + constructor; [| constructor]. by destruct m.
    + by repeat constructor.
Qed.

Lemma latency_not_negative_example :
  Forall latency_ok (trace orderly_session initial)
  /\ fired "a1" "d1" (trace orderly_session initial) = 1.
Proof.
  split; [| vm_compute; reflexivity].
  apply (latency_not_negative orderly_session 0 initial).
  - apply initial_deals.
  - unfold orderly_session. simpl. lia.
Defined.

(** ** The life of an alert *)

Lemma omap_set_fresh {A} k (a : A) m :
  omap_get k m = None -> omap_set k a m = m ++ [(k, a)].
Proof.
  induction m as [| [k' a'] m IH]; simpl; [done |].
  destruct (String.eqb k' k); [done |]. intros Hnone. by rewrite IH.
Qed.

Lemma create_alert_accepted s body uuid now a :
  response (POST_alerts body uuid now) s = Ok (AlertCreated a) ->
  alerts (next (POST_alerts body uuid now) s) = omap_set uuid a (alerts s)
  /\ Alert.id a = uuid
  /\ Body.alert_userId body = Some (Alert.userId a)
  /\ is_Some (users s !! Alert.userId a)
  /\ Alert.productKeywords a = JS.toLowerCase (text (Body.productKeywords body))
  /\ Alert.maxPrice a = JS.parseFloat (Body.maxPrice body)
  /\ Alert.triggered a = [].
Proof.
  unfold response, next, handle, post_alerts.
  destruct (_ || _) eqn:Hmissing; [done |].
  destruct (Body.alert_userId body) as [userId |] eqn:Huser; [| done]. simpl.
  destruct (users s !! userId) as [user |] eqn:Hu; [| done].
  simpl. intros [= <-]. simpl. repeat split; eauto.
Qed.

(** X11. An alert created under a new identifier is appended to the alerts
    of its owner, who is a registered user, and to nobody else's:
    GET /api/alerts/user/:userId lists it last for the owner and lists what it
    listed before for every other user. *)
Theorem created_alert_listed
    (s : Server) (body : Body.alert) (uuid : string) (now : Z) (a : Alert.t) :
  response (POST_alerts body uuid now) s = Ok (AlertCreated a) ->
  omap_get uuid (alerts s) = None ->
  is_Some (users s !! Alert.userId a)
  /\ get_alerts_user (Alert.userId a) (next (POST_alerts body uuid now) s)
     = get_alerts_user (Alert.userId a) s ++ [a]
  /\ (forall other, other <> Alert.userId a ->
        get_alerts_user other (next (POST_alerts body uuid now) s)
        = get_alerts_user other s).
Proof.
  intros Hresp Hnew.
  destruct (create_alert_accepted _ _ _ _ _ Hresp) as (Halerts & _ & _ & Huser & _).
  split; [exact Huser |].
  unfold get_alerts_user. rewrite Halerts, (omap_set_fresh _ _ _ Hnew).
  rewrite map_app. simpl. split.
  - rewrite List.filter_app. simpl. by rewrite String.eqb_refl.
  - intros other Hne. rewrite List.filter_app. simpl.
    destruct (String.eqb_spec (Alert.userId a) other); [congruence |].
    by rewrite app_nil_r.
Qed.

Lemma created_alert_listed_example :
  get_alerts_user "u2" (next (POST_alerts default_alert_body "a2" 2600) centralized_market)
  = [stored_alert; default_alert].
Proof.
  destruct (created_alert_listed centralized_market default_alert_body "a2" 2600 default_alert)
    as (_ & Hlisted & _).
  - vm_compute. reflexivity.
  - vm_compute. reflexivity.
  - change "u2" with (Alert.userId default_alert). rewrite Hlisted.
    vm_compute. reflexivity.
Defined.

Lemma omap_delete_absent {A} k (m : list (string * A)) :
  omap_get k m = None -> omap_delete k m = m.
Proof.
  unfold omap_delete. induction m as [| [k' a'] m IH]; simpl; [done |].
  destruct (String.eqb k' k); [done |]. simpl. intros Hnone. by rewrite IH.
Qed.

Lemma budget_absent k d s : omap_get k (alerts s) = None -> budget k d s = 0.
Proof. unfold budget. by intros ->. Qed.

(** X12. DELETE /api/alerts/:alertId reports whether the alert was stored
    and removes it, all other alerts keeping their place. Deleting it a
    second time reports false and changes nothing, and as long as its
    identifier is not handed out again no notification is ever sent for it. *)
Theorem deleted_alert_gone (s : Server) (alertId : string) (rs : list Request) :
  alerts_wf (alerts s) ->
  Forall (not_recreating alertId) rs ->
  let s' := next (DELETE_alerts alertId) s in
  (response (DELETE_alerts alertId) s = Ok (AlertDeleted true)
   <-> is_Some (omap_get alertId (alerts s)))
  /\ omap_get alertId (alerts s') = None
  /\ (forall k, k <> alertId -> omap_get k (alerts s') = omap_get k (alerts s))
  /\ handle (DELETE_alerts alertId) s' = (Ok (AlertDeleted false), s', [])
  /\ (forall d, fired alertId d (trace rs s') = 0).
Proof.
  intros Hwf Hnew s'.
  assert (omap_get alertId (alerts s') = None) as Hgone.
  { unfold s', next, handle, delete_alerts. simpl.
    by rewrite omap_get_delete, String.eqb_refl. }
  split; [| split; [exact Hgone | split; [| split]]].
  - unfold response, handle, delete_alerts, omap_has. simpl.
    destruct (omap_get alertId (alerts s)); split;
      [by eauto | done | done | by intros [? ?]].
  - intros k Hne. unfold s', next, handle, delete_alerts. simpl.
    rewrite omap_get_delete. by destruct (String.eqb_spec alertId k).
  - unfold handle, delete_alerts, omap_has. rewrite Hgone.
    rewrite (omap_delete_absent _ _ Hgone). by destruct s'.
  - intros d.
    pose proof (budget_run rs s' alertId d (alerts_wf_step _ _ Hwf) Hnew) as Hle.
    rewrite (budget_absent _ _ _ Hgone) in Hle. lia.
Qed.

Lemma deleted_alert_gone_example :
  fired "a1" "d1" (trace four_valid (next (DELETE_alerts "a1") decentralized_market)) = 0
  /\ Deal.status <$> deals (run four_valid (next (DELETE_alerts "a1") decentralized_market))
                       !! "d1" = Some verified.
Proof.
  split; [| vm_compute; reflexivity].
  destruct (deleted_alert_gone decentralized_market "a1" four_valid decentralized_market_wf)
    as (_ & _ & _ & _ & Hsilent).
  - repeat constructor.
  - apply Hsilent.
Defined.

Lemma unmatchable_check deal now a : unmatchable a -> check_alert deal now a = (a, []).
Proof.
  unfold check_alert, priceMatch, verificationMatch, JS.ge_value, JS.num_ge.
  intros [-> | ->].
  - assert (JS.num_le (Deal.price deal) JS.NaN = false) as -> by (by destruct (Deal.price deal) as [| [] |]).
    by rewrite andb_false_r.
  - by rewrite andb_false_r.
Qed.

Lemma unmatchable_silent_run rs : forall s k,
  alerts_wf (alerts s) -> Forall (not_recreating k) rs ->
  (forall a, omap_get k (alerts s) = Some a -> unmatchable a) ->
  forall d, fired k d (trace rs s) = 0.
Proof.
  induction rs as [| r rs IH]; intros s k Hwf Hnew Hmute d; simpl; [done |].
  inversion Hnew as [| ? ? Hr Hrs]; subst. rewrite fired_app.
  assert (fired k d (effects r s) = 0
          /\ (forall a, omap_get k (alerts (next r s)) = Some a -> unmatchable a))
    as [-> Hmute'].
  { destruct (step_cases r s) as [(_ & Hnone & Hedit & _) | (key & d0 & d1 & now & Hscan)].
    - split; [apply Hnone |].
      destruct Hedit as [-> | [(body & uuid & now & a & -> & _ & _ & ->) | (id & _ & ->)]].
      + done.
      + simpl in Hr. by rewrite omap_get_set_ne.
      + rewrite omap_get_delete. destruct (String.eqb id k); [done | apply Hmute].
    - destruct Hscan as (_ & _ & _ & _ & _ & -> & _ & ->).
      rewrite fired_forEach, forEach_alert_get by done.
      destruct (omap_get k (alerts s)) as [a |]; simpl; [| done].
      rewrite (unmatchable_check d1 now a) by (by apply Hmute). simpl.
      split; [done |]. intros a' [= <-]. by apply Hmute. }
  apply IH; [by apply alerts_wf_step | done | done].
Qed.

(** X13. An alert whose maximum price does not read as a number is
    accepted as soon as the field is a non-empty text, and stored with the
    maximum NaN: no deal is ever at most NaN, so the alert never notifies,
    whatever is served afterwards. *)
Theorem unpriced_alert_silent
    (s : Server) (body : Body.alert) (uuid : string) (now : Z) (a : Alert.t)
    (rs : list Request) :
  alerts_wf (alerts s) ->
  response (POST_alerts body uuid now) s = Ok (AlertCreated a) ->
  JS.parseFloat (Body.maxPrice body) = JS.NaN ->
  Forall (not_recreating uuid) rs ->
  Alert.maxPrice a = JS.NaN
  /\ forall d, fired uuid d (trace rs (next (POST_alerts body uuid now) s)) = 0.
Proof.
  intros Hwf Hresp Hnan Hnew.
  destruct (create_alert_accepted _ _ _ _ _ Hresp) as (Halerts & _ & _ & _ & _ & Hmax & _).
  rewrite Hnan in Hmax. split; [exact Hmax |].
  apply unmatchable_silent_run; [by apply alerts_wf_step | done |].
  intros a'. rewrite Halerts, omap_get_set_eq. intros [= <-]. by left.
Qed.

Lemma unpriced_alert_silent_example :
  fired "a4" "d1" (trace four_valid (next (POST_alerts vague_alert_body "a4" 2800)
                                          decentralized_market)) = 0
  /\ fired "a1" "d1" (trace four_valid (next (POST_alerts vague_alert_body "a4" 2800)
                                             decentralized_market)) = 1.
Proof.
  split; [| vm_compute; reflexivity].
  apply (unpriced_alert_silent decentralized_market vague_alert_body "a4" 2800 vague_alert).
  - apply decentralized_market_wf.
  - vm_compute. reflexivity.
  - reflexivity.
  - repeat constructor.
Defined.

(** ** The configuration *)

Lemma config_step r s :
  config (next r s)
  = match r with
    | POST_config_mode v =>
        Config.set_mode (mode_after (Config.mode (config s)) [r]) (config s)
    | _ => config s
    end.
Proof.
  destruct r; unfold next, handle; simpl.
  - unfold post_users_register. by repeat case_match.
  - unfold post_deals. by repeat case_match.
  - unfold post_deals_vote. by repeat case_match.
  - unfold post_deals_verify.
    destruct (deals s !! dealId); [| done].
    destruct (Body.userId body); [| done]. simpl.
    destruct (users s !! _); [| done].
    case_match; [done |].
    by destruct (if bool_decide _ then _ else _) as [[? ?] ?].
  - unfold post_alerts. by repeat case_match.
  - done.
  - unfold post_config_mode.
    destruct (JS.is_string mode "centralized") eqn:Hc; simpl; [done |].
    destruct (JS.is_string mode "decentralized") eqn:Hd; simpl; [done |].
    by destruct (config s).
  - unfold timer_due. destruct (includes_id _ _); [| done].
    unfold checkPromotion, checkAlertsForDeal. simpl.
    destruct (deals s !! dealId); [| done].
    destruct (negb _); [done |]. destruct (_ <=? _); [| done].
    by destruct (forEach_alert _ _ _).
Qed.

(** X14. Requests change nothing of the configuration but the mode: the
    thresholds and delays stay what they are, and the mode is the one named
    by the last mode request that named one of the two modes (a request naming
    anything else is refused and leaves the mode). From start-up the promotion
    threshold is therefore always 5. *)
Theorem config_only_mode_changes (rs : list Request) (s : Server) :
  config (run rs s) = Config.set_mode (mode_after (Config.mode (config s)) rs) (config s)
  /\ Config.promotionThreshold (config (run rs initial)) = 5.
Proof.
  assert (forall s', config (run rs s')
                     = Config.set_mode (mode_after (Config.mode (config s')) rs) (config s'))
    as Hrun.
  { induction rs as [| r rs IH]; intros s'; simpl; [by destruct (config s') |].
    rewrite IH, config_step. by destruct r. }
  split; [apply Hrun |]. by rewrite Hrun.
Qed.

(** ** Statistics *)

Lemma count_partition (ds : list Deal.t) :
  count_status pending ds + count_status promoted ds
  + count_status verified ds + count_status rejected ds = length ds.
Proof.
  unfold count_status. induction ds as [| d ds IH]; simpl; [done |].
  destruct (Deal.status d); simpl; lia.
Qed.

(** X15. In the statistics every deal is counted under exactly one status:
    the pending, promoted, verified and rejected counts add up to the total,
    which is the number of stored deals. *)
Theorem stats_partition (s : Server) :
  Stats.pendingDeals (get_stats s) + Stats.promotedDeals (get_stats s)
  + Stats.verifiedDeals (get_stats s) + Stats.rejectedDeals (get_stats s)
  = Stats.totalDeals (get_stats s)
  /\ Stats.totalDeals (get_stats s) = size (deals s).
Proof.
  split; [apply count_partition |].
  unfold get_stats, deal_values. simpl. rewrite length_map.
  apply length_map_to_list.
Qed.






(** ** Evaluating twice *)

(** X17. The consensus check settles a deal in one go: run again on its own
    outcome, at any later time, it changes neither the deal nor the alerts and
    broadcasts nothing. *)
Theorem consensus_settles (deal : Deal.t) (now later : Z) (m : list (string * Alert.t)) :
  checkConsensus (checkConsensus deal now m).1.1 later (checkConsensus deal now m).1.2
  = ((checkConsensus deal now m).1.1, (checkConsensus deal now m).1.2, []).
Proof.
  assert (forall d m', Deal.status d <> pending -> checkConsensus d later m' = (d, m', []))
    as Hsettled.
  { intros d m' Hst. unfold checkConsensus.
    assert (is_pending (Deal.status d) = false) as ->
      by (by apply bool_decide_eq_false).
    by rewrite !andb_false_r. }
  destruct (checkConsensus_cases deal now m) as [[Hp Hc] | [[Hp Hc] | Hc]].
  - simpl in Hc. rewrite Hc. simpl. by apply Hsettled.
  - rewrite Hc. simpl. by apply Hsettled.
  - rewrite Hc. simpl. revert Hc. unfold checkConsensus, checkAlertsForDeal.
    destruct (_ && _); [by destruct (forEach_alert _ _ _) |].
    by destruct (_ && _).
Qed.

Lemma check_alert_again deal now later a :
  check_alert deal later (check_alert deal now a).1 = ((check_alert deal now a).1, []).
Proof.
  unfold check_alert.
  destruct (keywordsMatch deal a && priceMatch deal a && verificationMatch deal a) eqn:Hm;
    simpl.
  - destruct (includes_id (Alert.triggered a) (Deal.id deal)) eqn:Hin; simpl.
    + unfold keywordsMatch, priceMatch, verificationMatch in *. by rewrite Hm, Hin.
    + unfold keywordsMatch, priceMatch, verificationMatch in *. simpl. rewrite Hm.
      by rewrite includes_id_snoc, String.eqb_refl, orb_true_r.
  - unfold keywordsMatch, priceMatch, verificationMatch in *. by rewrite Hm.
Qed.

(** X18. Scanning the alerts a second time for the same deal, at any later
    time, notifies nobody and leaves every alert as the first scan left it:
    the triggered lists make the scan idempotent. *)
Theorem rescan_silent (deal : Deal.t) (now later : Z) (m : list (string * Alert.t)) :
  checkAlertsForDeal deal later (checkAlertsForDeal deal now m).1
  = ((checkAlertsForDeal deal now m).1, [AlertScan deal]).
Proof.
  unfold checkAlertsForDeal.
  assert (forEach_alert deal later (forEach_alert deal now m).1
          = ((forEach_alert deal now m).1, [])) as Hagain.
  { induction m as [| [k a] m IH]; simpl; [done |].
    pose proof (check_alert_again deal now later a) as Ha.
    destruct (check_alert deal now a) as [a' sent].
    destruct (forEach_alert deal now m) as [m' sent']. simpl in *.
    by rewrite Ha, IH. }
  destruct (forEach_alert deal now m) as [m' sent]. simpl in *. by rewrite Hagain.
Qed.

(** ** Verifications are filed *)

Lemma verifications_step r s i :
  is_Some (verifications s !! i) -> is_Some (verifications (next r s) !! i).
Proof.
  intros Hi.
  destruct r; unfold next, handle.
  - unfold post_users_register. by repeat case_match.
  - unfold post_deals. by repeat case_match.
  - unfold post_deals_vote. by repeat case_match.
  - unfold post_deals_verify.
    destruct (deals s !! dealId); [| done].
    destruct (Body.userId body); [| done]. simpl.
    destruct (users s !! _); [| done].
    case_match; [done |].
    destruct (if bool_decide _ then _ else _) as [[? ?] ?]. simpl.
    destruct (decide (uuid = i)) as [-> | ?];
      [rewrite lookup_insert_eq; eauto | by rewrite lookup_insert_ne].
  - unfold post_alerts. by repeat case_match.
  - done.
  - unfold post_config_mode. by repeat case_match.
  - unfold timer_due. destruct (includes_id _ _); [| done].
    unfold checkPromotion, checkAlertsForDeal. simpl.
    destruct (deals s !! dealId); [| done].
    destruct (negb _); [done |]. destruct (_ <=? _); [| done].
    by destruct (forEach_alert _ _ _).
Qed.

(** What an accepted verification request writes. *)
Lemma verify_writes s dealId body uuid now :
  next (POST_deals_verify dealId body uuid now) s = s
  \/ exists deal userId user v deal2,
       deals s !! dealId = Some deal
       /\ Verification.id v = uuid /\ Verification.dealId v = Deal.id deal
       /\ Verification.verifierId v = userId
       /\ Deal.verifications deal2 = Deal.verifications deal ++ [v]
       /\ Deal.id deal2 = Deal.id deal
       /\ deals (next (POST_deals_verify dealId body uuid now) s)
          = <[dealId := deal2]> (deals s)
       /\ users (next (POST_deals_verify dealId body uuid now) s)
          = <[userId := User.set_verificationHistory
                           (User.verificationHistory user ++ [uuid]) user]> (users s)
       /\ verifications (next (POST_deals_verify dealId body uuid now) s)
          = <[uuid := v]> (verifications s).
Proof.
  unfold next, handle, post_deals_verify.
  destruct (deals s !! dealId) as [deal |] eqn:Hdeal; [| by left].
  destruct (Body.userId body) as [userId |]; [| by left]. simpl.
  destruct (users s !! userId) as [user |]; [| by left].
  destruct (existsb _ _); [by left |]. right.
  set (v := Verification.make _ _ _ _ _ _ _).
  set (deal1 := Deal.set_verifications _ _).
  assert (exists deal2 m' sent,
             (if bool_decide (Config.mode (config s) = decentralized)
              then checkConsensus deal1 now (alerts s) else (deal1, alerts s, []))
             = (deal2, m', sent)
             /\ Deal.verifications deal2 = Deal.verifications deal1
             /\ Deal.id deal2 = Deal.id deal1)
    as (deal2 & m' & sent & -> & Hvs & Hid).
  { case_bool_decide; [| by eexists _, _, _].
    pose proof (checkConsensus_deal deal1 now (alerts s)) as Hout.
    destruct (checkConsensus deal1 now (alerts s)) as [[deal2 m'] sent]. simpl in Hout.
    eexists _, _, _. split; [done |]. subst deal2. by repeat case_match. }
  exists deal, userId, user, v, deal2. simpl. by repeat split.
Qed.

Lemma filed_step r s : filed s -> filed (next r s).
Proof.
  intros Hinv k d' v Hk' Hv.
  assert (forall d, deals s !! k = Some d -> v ∈ Deal.verifications d ->
                    Deal.id d' = Deal.id d ->
                    Verification.dealId v = Deal.id d'
                    /\ is_Some (users (next r s) !! Verification.verifierId v)
                    /\ is_Some (verifications (next r s) !! Verification.id v)) as Hold.
  { intros d Hk Hin Hid. destruct (Hinv k d v Hk Hin) as (Hdeal & Huser & Hstore).
    repeat split; [congruence | by apply users_step | by apply verifications_step]. }
  destruct r.
  all: try (pose proof (deal_provenance _ s k d' Hk') as Hchange;
            remember (deals s !! k) as before eqn:Hbefore; symmetry in Hbefore;
            destruct Hchange as [d | before body' now' user d _ _ _ _ Hnone | userId' d _
                                 | ? ? ? d ? [=] | ? ? ? d ? [=] | ? ? ? d ? [=] | now' d _ _];
            [ by apply (Hold d)
            | rewrite Hnone in Hv; by apply elem_of_nil in Hv
            | by apply (Hold d)
            | by apply (Hold d) ]).
  destruct (verify_writes s dealId body uuid now)
    as [Hsame | (deal & userId & user & w & deal2 & Hdeal & Hwid & Hwdeal & Hwuser
                 & Hvs & Hid & Hdeals & Husers & Hstore)].
  - rewrite Hsame in *. by apply (Hinv k d').
  - rewrite Hdeals in Hk'. rewrite Husers, Hstore.
    destruct (decide (dealId = k)) as [-> | Hne].
    + rewrite lookup_insert_eq in Hk'. injection Hk' as <-.
      rewrite Hvs in Hv. apply elem_of_app in Hv as [Hv | Hv].
      * destruct (Hinv k deal v Hdeal Hv) as (Hd & Hu & Hs).
        repeat split; [congruence | |].
        -- destruct (decide (userId = Verification.verifierId v)) as [-> | ?];
             [rewrite lookup_insert_eq; eauto | by rewrite lookup_insert_ne].
        -- destruct (decide (uuid = Verification.id v)) as [-> | ?];
             [rewrite lookup_insert_eq; eauto | by rewrite lookup_insert_ne].
      * apply list_elem_of_singleton in Hv as ->.
        rewrite Hwid, Hwuser, !lookup_insert_eq. repeat split; [congruence | eauto | eauto].
    + rewrite lookup_insert_ne in Hk' by done.
      destruct (Hinv k d' v Hk' Hv) as (Hd & Hu & Hs).
      repeat split; [done | |].
      * destruct (decide (userId = Verification.verifierId v)) as [-> | ?];
          [rewrite lookup_insert_eq; eauto | by rewrite lookup_insert_ne].
      * destruct (decide (uuid = Verification.id v)) as [-> | ?];
          [rewrite lookup_insert_eq; eauto | by rewrite lookup_insert_ne].
Qed.

(** X19. In every state the server reaches, each verification listed on a
    deal names the deal it is listed on and a registered user as verifier,
    and the verification store has an entry under its identifier. *)
Theorem verifications_filed
    (rs : list Request) (k : string) (d : Deal.t) (v : Verification.t) :
  deals (run rs initial) !! k = Some d ->
  v ∈ Deal.verifications d ->
  Verification.dealId v = k
  /\ is_Some (users (run rs initial) !! Verification.verifierId v)
  /\ is_Some (verifications (run rs initial) !! Verification.id v).
Proof.
  intros Hk Hv.
  assert (filed (run rs initial)) as Hfiled.
  { apply run_invariant; [apply filed_step |]. intros k' d' v' Hnone.
    unfold initial in Hnone. simpl in Hnone. by rewrite lookup_empty in Hnone. }
  assert (ids_keyed (run rs initial)) as Hkeyed
    by (apply run_invariant; [apply ids_keyed_step | apply initial_deals]).
  destruct (Hfiled k d v Hk Hv) as (Hdeal & Huser & Hstore).
  repeat split; [| done | done]. rewrite Hdeal. by apply (Hkeyed k).
Qed.

Lemma verifications_filed_example :
  Verification.dealId first_verification = "d1"
  /\ is_Some (users (run orderly_session initial) !! "u2").
Proof.
  destruct (verifications_filed orderly_session "d1"
              (default rtx_deal (deals (run orderly_session initial) !! "d1"))
              first_verification) as (Hdeal & Huser & _).
  - vm_compute. reflexivity.
  - vm_compute. left.
  - split; [exact Hdeal | exact Huser].
Defined.
